(** * codex-skill: input resolution and session continuity of [scripts/codex.ts]

    A shallow embedding of [src/scripts/codex.ts].  The script is one
    [main] function that reads its input from one of several channels,
    validates it, talks to the Codex service once and rewrites a one-record
    state file.  The embedding keeps that shape:

    - the process environment ([process.argv], standard input, the files
      that can be read, [process.env], the clock, the Codex SDK) is a
      read-only record [Env];
    - what the process changes (the state file, what it prints, which
      operations of the service it invoked) is a record [Proc] threaded
      through a small monad whose computations either return, leave through
      [process.exit], or raise an exception;
    - [JSON.parse] and [JSON.stringify] are built-ins of the language, not
      code of the script: they are the operations of the class [JSON], typed
      by the interfaces [Input] and [State] the script declares.

    Strings are sequences of characters (the code units of the JavaScript
    string).  An optional property the script only tests for truthiness is an
    [option], with [null] and [undefined] both [None]; the action, which the
    script also prints, keeps [null] apart ([Optional]).  [messageCount] is a
    double ([Number], with the rounding of the one addition the script makes
    written out).  A parsed text can be [null] or a primitive instead of an
    object ([ParsedInput], [ParsedState]); a property of another type than
    the interface declares (a number where it says string) is outside the
    model. *)

From Stdlib Require Import String Ascii List Bool Arith ZArith Lia Floats DecimalString.
Import ListNotations.
Local Open Scope string_scope.

Set Implicit Arguments.

(** ** JavaScript values and helpers *)

(** A call that may throw: the value, or the message of the exception
    ([err instanceof Error ? err.message : String(err)]). *)
Inductive Exc (A : Type) : Type :=
| Ok (a : A)
| Raise (message : string).
Arguments Ok {A} & a.
Arguments Raise {A} message.

(** The double quote and the line feed, as characters of a message. *)
Definition dq : string := String (ascii_of_nat 34) EmptyString.
Definition nl : string := String (ascii_of_nat 10) EmptyString.

(** Truthiness of a string: every string but the empty one. *)
Definition truthy (s : string) : bool :=
  match s with
  | EmptyString => false
  | String _ _ => true
  end.

(** Truthiness of an optional string property ([undefined] is falsy). *)
Definition truthyO (o : option string) : bool :=
  match o with
  | Some s => truthy s
  | None => false
  end.

(** [a || b] on optional strings. *)
Definition jsOr (a b : option string) : option string :=
  if truthyO a then a else b.

(** A number as JSON can give one: a double, that is a finite value
    [m * 2^e] or an infinity (no text parses to NaN; the two zeros are both
    [Finite 0 e], the script only tests a zero for truthiness). *)
Inductive Number : Type :=
| Finite (m e : Z)
| Infinite (negative : bool).

(** The double nearest to [m * 2^e], ties to the even significand (IEEE 754
    binary64: 53 bits of significand, exponents of the last place from -1074
    to 971, overflow to an infinity). *)
Definition round64 (m e : Z) : Number :=
  if Z.eqb m 0 then Finite 0 0
  else
    let k := (Z.log2 (Z.abs m) + e)%Z in       (* 2^k <= |m * 2^e| < 2^(k+1) *)
    let t := (Z.max k (-1022) - 52)%Z in       (* exponent of the last place *)
    if Z.leb t e then
      if Z.leb 1024 k then Infinite (Z.ltb m 0) else Finite m e
    else
      let s := (t - e)%Z in
      let a := Z.abs m in
      let q := (a / 2 ^ s)%Z in
      let r := (a mod 2 ^ s)%Z in
      let half := (2 ^ (s - 1))%Z in
      let q' := if Z.ltb half r || (Z.eqb r half && Z.odd q) then (q + 1)%Z else q in
      if Z.eqb q' 0 then Finite 0 0
      else if Z.leb 1024 (Z.log2 q' + t) then Infinite (Z.ltb m 0)
      else Finite (Z.sgn m * q') t.

(** [x + 1]: the exact sum, rounded. *)
Definition plus1 (x : Number) : Number :=
  match x with
  | Finite m e =>
      if Z.leb 0 e then round64 (m * 2 ^ e + 1) 0 else round64 (m + 2 ^ (- e)) e
  | Infinite negative => Infinite negative
  end.

(** The integer a number is, if it is one. *)
Definition asInteger (x : Number) : option Z :=
  match x with
  | Finite m e =>
      if Z.leb 0 e then Some (m * 2 ^ e)%Z
      else if Z.eqb (m mod 2 ^ (- e)) 0 then Some (m / 2 ^ (- e))%Z
      else None
  | Infinite _ => None
  end.

(** The number as a double of the kernel, for significands below [2^63]. *)
Definition toFloat (x : Number) : float :=
  match x with
  | Finite m e =>
      let f := Z.ldexp (PrimFloat.of_uint63 (Uint63.of_Z (Z.abs m))) e in
      if Z.ltb m 0 then PrimFloat.opp f else f
  | Infinite negative => if negative then neg_infinity else infinity
  end.

(** [n || d] on an optional number: [undefined], [null] and the zeros are
    falsy. *)
Definition jsOrNum (n : option Number) (d : Number) : Number :=
  match n with
  | Some (Finite m e) => if Z.eqb m 0 then d else Finite m e
  | Some (Infinite negative) => Infinite negative
  | None => d
  end.

(** A property that is a string, [null] or [undefined], for the one place
    where the script prints it. *)
Inductive Optional : Type :=
| Undefined
| Null
| Str (s : string).

(** An optional string read as such a property: [None] is [undefined]. *)
Definition ofOption (o : option string) : Optional :=
  match o with
  | Some s => Str s
  | None => Undefined
  end.
#[warning="-uniform-inheritance"]
Coercion ofOption : option >-> Optional.

(** [`${v}`]. *)
Definition interpolate (o : Optional) : string :=
  match o with
  | Str s => s
  | Null => "null"
  | Undefined => "undefined"
  end.

(** [args.indexOf(x)]: the first position of [x], [None] for [-1]. *)
Fixpoint indexOf (x : string) (args : list string) : option nat :=
  match args with
  | [] => None
  | a :: rest =>
      if String.eqb a x then Some 0
      else match indexOf x rest with
           | Some i => Some (S i)
           | None => None
           end
  end.

(** [args.includes(x)]. *)
Definition includes (x : string) (args : list string) : bool :=
  existsb (fun a => String.eqb a x) args.

(** [v], when it is a truthy string. *)
Definition whenTruthy (o : option string) : option string :=
  match o with
  | Some s => if truthy s then Some s else None
  | None => None
  end.

(** [index !== -1 && args[index + 1]]: the argument after the flag when the
    flag occurs and that argument is truthy. *)
Definition argAfter (index : option nat) (args : list string) : option string :=
  match index with
  | Some i => whenTruthy (nth_error args (i + 1))
  | None => None
  end.

(** [s.startsWith(p)] and [args.join(sep)]. *)
Definition startsWith (p s : string) : bool := String.prefix p s.
Definition join (sep : string) (args : list string) : string := String.concat sep args.

(** [s.slice(0, n)]. *)
Definition slice0 (n : nat) (s : string) : string := substring 0 n s.

(** ** Data model (lines 15-37) *)

Module State.
Record t : Type := mk {
  threadId : option string;
  topic : option string;
  lastUsed : option string;
  messageCount : option Number;
  workingDirectory : option string
}.
(** The empty object [{}]. *)
Definition empty : t := mk None None None None None.
End State.

Module Input.
(** [interface Input], with [promptFile] of the cast at lines 130-131.
    [action] and [prompt] are checked at run time, so they are optional
    here and [action] is any string. *)
Record t : Type := mk {
  action : Optional;
  prompt : option string;
  context : option string;
  topic : option string;
  workingDirectory : option string;
  promptFile : option string
}.
Definition set_prompt (p : string) (i : t) : t :=
  mk (action i) (Some p) (context i) (topic i) (workingDirectory i) (promptFile i).
Definition set_context (c : option string) (i : t) : t :=
  mk (action i) (prompt i) c (topic i) (workingDirectory i) (promptFile i).
Definition set_topic (c : option string) (i : t) : t :=
  mk (action i) (prompt i) (context i) c (workingDirectory i) (promptFile i).
Definition set_workingDirectory (c : option string) (i : t) : t :=
  mk (action i) (prompt i) (context i) (topic i) c (promptFile i).
(** An object with none of the properties. *)
Definition empty : t := mk Undefined None None None None None.
End Input.

Module Output.
Record t : Type := mk {
  success : bool;
  threadId : option string;
  response : option string;
  error : option string;
  canContinue : bool
}.
End Output.

(** The object printed in validation mode (lines 166-173). *)
Module Report.
Record t : Type := mk {
  valid : bool;
  action : Optional;
  promptLength : nat;
  hasContext : bool;
  hasTopic : bool;
  hasWorkingDirectory : bool
}.
End Report.

(** What [JSON.parse] makes of the input text: [null], a primitive (a
    number, a string, a boolean: reading a property of it gives [undefined],
    setting one throws the [TypeError] whose message it carries), or an
    object, known by its properties. *)
Inductive ParsedInput : Type :=
| NullInput
| PrimitiveInput (assignMessage : string)
| ObjectInput (input : Input.t).
Coercion ObjectInput : Input.t >-> ParsedInput.

(** What [JSON.parse] makes of the state file: [null], or a value known by
    its properties (a primitive has none, like the empty object). *)
Inductive ParsedState : Type :=
| NullState
| ObjectState (state : State.t).
Coercion ObjectState : State.t >-> ParsedState.

(** [JSON.parse] and [JSON.stringify], at the types the script uses them. *)
Class JSON : Type := {
  JSON_parse_Input : string -> Exc ParsedInput;
  JSON_parse_State : string -> Exc ParsedState;
  JSON_stringify_Input : Input.t -> string;
  JSON_stringify_State : State.t -> string;
  JSON_stringify_string : string -> string
}.

(** ** The Codex SDK (the external service) *)

(** [threadOptions] (lines 197-202). *)
Record ThreadOptions : Type := {
  skipGitRepoCheck : bool;
  opt_workingDirectory : option string
}.

(** What [thread.run] resolves to, as lines 229-235 tell the cases apart:
    a string, an object with [finalResponse], or anything else (with what
    [JSON.stringify] makes of it). *)
Inductive RunResult : Type :=
| ResString (s : string)
| ResTurn (finalResponse : string)
| ResOther (json : option string).

(** A completed turn: the result and [thread.id] as read after it. *)
Record Turn : Type := {
  result : RunResult;
  id : option string
}.

Record Thread : Type := {
  run : string -> Exc Turn
}.

Record Codex : Type := {
  startThread : ThreadOptions -> Exc Thread;
  resumeThread : string -> ThreadOptions -> Exc Thread
}.

(** The operations of the service the process invoked, in order. *)
Inductive Call : Type :=
| StartThread (options : ThreadOptions)
| ResumeThread (threadId : string) (options : ThreadOptions)
| Run (fullPrompt : string).

(** ** The process *)

Record Env : Type := {
  argv : list string;                  (* process.argv.slice(2) *)
  stdin_isTTY : bool;                  (* process.stdin.isTTY *)
  stdin : Exc string;                  (* readFileSync(process.stdin.fd) *)
  readFileSync : string -> Exc string; (* input and prompt files *)
  OPENAI_API_KEY : option string;      (* process.env, after dotenv *)
  now : string;                        (* new Date().toISOString() *)
  newCodex : string -> Exc Codex       (* new Codex({ apiKey }) *)
}.

Inductive Printed : Type :=
| POutput (o : Output.t)
| PReport (r : Report.t).

Record Proc : Type := {
  stateFile : option string;   (* STATE_FILE: absent, or its text *)
  stdout : list Printed;       (* console.log, in order *)
  calls : list Call            (* operations invoked on the service *)
}.

(** How a computation ends: with a value, through [process.exit], or with
    an exception. *)
Inductive Step (A : Type) : Type :=
| Ret (a : A) (p : Proc)
| Exit (code : nat) (p : Proc)
| Throw (message : string) (p : Proc).
Arguments Ret {A} a p.
Arguments Exit {A} code p.
Arguments Throw {A} message p.

Definition M (A : Type) : Type := Proc -> Step A.

Definition ret {A} (a : A) : M A := fun p => Ret a p.

Definition bind {A B} (m : M A) (k : A -> M B) : M B :=
  fun p =>
    match m p with
    | Ret a p' => k a p'
    | Exit code p' => Exit code p'
    | Throw message p' => Throw message p'
    end.

Notation "x <- m ;; k" := (bind m (fun x => k))
  (at level 61, m at next level, right associativity).
Notation "m ;; k" := (bind m (fun _ => k))
  (at level 61, right associativity).

(** [process.exit(code)]. *)
Definition exit {A} (code : nat) : M A := fun p => Exit code p.

(** [throw]. *)
Definition throw {A} (message : string) : M A := fun p => Throw message p.

(** A call that may throw, made by the process. *)
Definition liftExc {A} (e : Exc A) : M A :=
  match e with
  | Ok a => ret a
  | Raise message => throw message
  end.

(** [try { body } catch (err) { handler(errorMessage) }]. *)
Definition tryCatch {A} (body : M A) (handler : string -> M A) : M A :=
  fun p =>
    match body p with
    | Throw message p' => handler message p'
    | r => r
    end.

(** The final process state of a step. *)
Definition final {A} (s : Step A) : Proc :=
  match s with
  | Ret _ p => p
  | Exit _ p => p
  | Throw _ p => p
  end.

Definition print (x : Printed) : M unit :=
  fun p => Ret tt {| stateFile := stateFile p; stdout := stdout p ++ [x]; calls := calls p |}.

Definition invoke (c : Call) : M unit :=
  fun p => Ret tt {| stateFile := stateFile p; stdout := stdout p; calls := calls p ++ [c] |}.

(** [o === s]. *)
Definition isString (o : Optional) (s : string) : bool :=
  match o with
  | Str a => String.eqb a s
  | _ => false
  end.

(** ** The script *)

Section Script.
Context {json : JSON}.

(** [loadState] (lines 39-48): the parsed state file, or the empty record
    when the file is absent or does not parse (a file that exists but cannot
    be read takes the same [catch], and is a text that does not parse here). *)
Definition loadedState (file : option string) : ParsedState :=
  match file with
  | Some text =>
      match JSON_parse_State text with
      | Ok state => state
      | Raise _ => ObjectState State.empty
      end
  | None => ObjectState State.empty
  end.

Definition loadState : M ParsedState :=
  fun p => Ret (loadedState (stateFile p)) p.

(** The properties of the loaded value: those of the record, none for
    [null] (which has no property to read: see [properties]). *)
Definition readState (file : option string) : State.t :=
  match loadedState file with
  | ObjectState state => state
  | NullState => State.empty
  end.

(** The [TypeError] of V8 for a property read or set on [null]. *)
Definition nullReadMessage (property : string) : string :=
  "Cannot read properties of null (reading '" ++ property ++ "')".

Definition nullSetMessage (property : string) : string :=
  "Cannot set properties of null (setting '" ++ property ++ "')".

(** [state.workingDirectory], the first property read of the loaded value
    (line 205, inside the [try]): it throws on [null]. *)
Definition properties (state : ParsedState) : M State.t :=
  match state with
  | NullState => throw (nullReadMessage "workingDirectory")
  | ObjectState record => ret record
  end.

(** [saveState] (lines 50-52): the file is overwritten with the record.
    The write itself is taken to succeed. *)
Definition saveState (state : State.t) : M unit :=
  fun p =>
    Ret tt {| stateFile := Some (JSON_stringify_State state);
              stdout := stdout p;
              calls := calls p |}.

(** [output] (lines 54-56). *)
Definition output (data : Output.t) : M unit := print (POutput data).

(** The failure path every check of [main] takes:
    [output({ success: false, error, canContinue: false }); process.exit(1)]. *)
Definition failure (error : string) : Output.t :=
  Output.mk false None None (Some error) false.

Definition fail {A} (error : string) : M A :=
  output (failure error) ;; exit 1.

Definition noInputMessage : string :=
  "No input provided. Use --input-file, pipe JSON to stdin, or pass prompt as argument.".

Definition readInputMessage (inputPath errorMessage : string) : string :=
  "Failed to read input file " ++ dq ++ inputPath ++ dq ++ ": " ++ errorMessage.

Definition readPromptMessage (promptPath errorMessage : string) : string :=
  "Failed to read prompt file " ++ dq ++ promptPath ++ dq ++ ": " ++ errorMessage.

Definition invalidJsonMessage (errorMessage inputData : string) : string :=
  "Invalid JSON input: " ++ errorMessage ++ ". Preview: "
    ++ JSON_stringify_string (slice0 200 inputData).

Definition invalidActionMessage (action : Optional) : string :=
  "Invalid action " ++ dq ++ interpolate action ++ dq ++ ". Must be "
    ++ dq ++ "new" ++ dq ++ " or " ++ dq ++ "continue" ++ dq ++ ".".

Definition missingPromptMessage : string := "Missing 'prompt' field in input".

Definition noApiKeyMessage : string := "OPENAI_API_KEY environment variable not set".

(** The object of line 88: [{ action: "new", prompt: args.join(" ") }]. *)
Definition simpleInput (args : list string) : Input.t :=
  Input.mk (Str "new") (Some (join " " args)) None None None None.

(** [args.length > 0 && !args[0].startsWith("--")] (line 87). *)
Definition simpleArgs (args : list string) : bool :=
  match args with
  | [] => false
  | first :: _ => negb (startsWith "--" first)
  end.

(** Lines 65-98 of [main]: where the raw input comes from. *)
Definition readInputData (env : Env) : M string :=
  let args := argv env in
  let inputFileIndex := indexOf "--input-file" args in
  match argAfter inputFileIndex args with
  | Some inputPath =>
      (* Priority 1: --input-file *)
      match readFileSync env inputPath with
      | Ok inputData => ret inputData
      | Raise errorMessage => fail (readInputMessage inputPath errorMessage)
      end
  | None =>
      if negb (stdin_isTTY env) then
        (* Priority 2: stdin *)
        liftExc (stdin env)
      else if simpleArgs args then
        (* Priority 3: simple CLI args *)
        ret (JSON_stringify_Input (simpleInput args))
      else
        fail noInputMessage
  end.

(** Lines 100-112: [JSON.parse(inputData)]. *)
Definition parseInput (inputData : string) : M ParsedInput :=
  match JSON_parse_Input inputData with
  | Ok input => ret input
  | Raise errorMessage => fail (invalidJsonMessage errorMessage inputData)
  end.

(** [input.prompt = readFileSync(promptPath)] with its catch (lines 117-127
    and 132-142, the same text twice).  The file is read first; setting the
    property then throws on [null] and on a primitive (the module is strict),
    inside the same [try]. *)
Definition promptFromFile (env : Env) (promptPath : string) (input : ParsedInput)
  : M Input.t :=
  match readFileSync env promptPath with
  | Ok content =>
      match input with
      | ObjectInput object => ret (Input.set_prompt content object)
      | NullInput => fail (readPromptMessage promptPath (nullSetMessage "prompt"))
      | PrimitiveInput assignMessage => fail (readPromptMessage promptPath assignMessage)
      end
  | Raise errorMessage => fail (readPromptMessage promptPath errorMessage)
  end.

(** Lines 114-143: the prompt file, from the flag or else from the field.
    Without the flag, line 130 reads [input.promptFile], outside any [try]:
    on [null] the [TypeError] escapes. *)
Definition readPromptFile (env : Env) (input : ParsedInput) : M Input.t :=
  let args := argv env in
  let promptFileIndex := indexOf "--prompt-file" args in
  match argAfter promptFileIndex args with
  | Some promptPath => promptFromFile env promptPath input
  | None =>
      match input with
      | NullInput => throw (nullReadMessage "promptFile")
      | PrimitiveInput _ => ret Input.empty
      | ObjectInput object =>
          match whenTruthy (Input.promptFile object) with
          | Some promptPath => promptFromFile env promptPath input
          | None => ret object
          end
      end
  end.

(** Lines 145-162: the action, then the prompt.  The prompt that passed is
    handed on as a string. *)
Definition validate (input : Input.t) : M string :=
  if negb (isString (Input.action input) "new" || isString (Input.action input) "continue")
  then fail (invalidActionMessage (Input.action input))
  else
    match whenTruthy (Input.prompt input) with
    | None => fail missingPromptMessage
    | Some promptText => ret promptText
    end.

(** Lines 166-173. *)
Definition report (input : Input.t) (promptText : string) : Report.t :=
  Report.mk true
            (Input.action input)
            (String.length promptText)
            (truthyO (Input.context input))
            (truthyO (Input.topic input))
            (truthyO (Input.workingDirectory input)).

(** Line 205. *)
Definition effectiveWorkingDir (input : Input.t) (state : State.t) : option string :=
  jsOr (Input.workingDirectory input) (State.workingDirectory state).

(** Lines 197-208. *)
Definition threadOptions (input : Input.t) (state : State.t) : ThreadOptions :=
  {| skipGitRepoCheck := true;
     opt_workingDirectory := whenTruthy (effectiveWorkingDir input state) |}.

(** Lines 210-216: the thread, and [isNewThread].  [resumeTarget] is the
    test of line 211: the thread to resume, if the action is to continue
    and the state has a truthy [threadId]. *)
Definition resumeTarget (input : Input.t) (state : State.t) : option string :=
  if isString (Input.action input) "continue"
  then whenTruthy (State.threadId state)
  else None.

Definition openThread (codex : Codex) (input : Input.t) (state : State.t)
  : M (Thread * bool) :=
  let options := threadOptions input state in
  match resumeTarget input state with
  | Some threadId =>
      invoke (ResumeThread threadId options) ;;
      thread <- liftExc (resumeThread codex threadId options) ;;
      ret (thread, false)
  | None =>
      invoke (StartThread options) ;;
      thread <- liftExc (startThread codex options) ;;
      ret (thread, true)
  end.

(** Lines 218-222. *)
Definition fullPrompt (input : Input.t) (promptText : string) : string :=
  match whenTruthy (Input.context input) with
  | Some context => context ++ nl ++ nl ++ promptText
  | None => promptText
  end.

(** Lines 227-235. *)
Definition responseText (r : RunResult) : option string :=
  match r with
  | ResString s => Some s
  | ResTurn finalResponse => Some finalResponse
  | ResOther json => json
  end.

(** Lines 238-244. *)
Definition newState (env : Env) (input : Input.t) (state : State.t)
           (isNewThread : bool) (threadId : option string) : State.t :=
  State.mk threadId
           (jsOr (jsOr (Input.topic input) (State.topic state)) (Some "general review"))
           (Some (now env))
           (Some (plus1 (if isNewThread then Finite 0 0
                         else jsOrNum (State.messageCount state) (Finite 0 0))))
           (effectiveWorkingDir input state).

(** The body of the [try] (lines 193-252). *)
Definition exchange (env : Env) (codex : Codex) (loaded : ParsedState)
           (input : Input.t) (promptText : string) : M unit :=
  state <- properties loaded ;;
  opened <- openThread codex input state ;;
  let thread := fst opened in
  let isNewThread := snd opened in
  invoke (Run (fullPrompt input promptText)) ;;
  turn <- liftExc (run thread (fullPrompt input promptText)) ;;
  saveState (newState env input state isNewThread (id turn)) ;;
  output (Output.mk true (id turn) (responseText (result turn)) None true).

(** Lines 164-261: what [main] does with a validated input. *)
Definition serve (env : Env) (input : Input.t) (promptText : string) : M unit :=
  let validateMode := includes "--validate" (argv env) in
  if validateMode then
    print (PReport (report input promptText)) ;;
    exit 0
  else
    match whenTruthy (OPENAI_API_KEY env) with
    | None => fail noApiKeyMessage
    | Some apiKey =>
        state <- loadState ;;
        codex <- liftExc (newCodex env apiKey) ;;
        tryCatch (exchange env codex state input promptText)
                 (fun errorMessage => fail ("Codex error: " ++ errorMessage))
    end.

(** Lines 59-162: the validated input and its prompt. *)
Definition resolveRequest (env : Env) : M (Input.t * string) :=
  inputData <- readInputData env ;;
  parsed <- parseInput inputData ;;
  input <- readPromptFile env parsed ;;
  promptText <- validate input ;;
  ret (input, promptText).

(** [main] (lines 58-262). *)
Definition main (env : Env) : M unit :=
  request <- resolveRequest env ;;
  serve env (fst request) (snd request).

End Script.

Arguments readInputMessage : simpl never.
Arguments readPromptMessage : simpl never.
Arguments invalidJsonMessage : simpl never.
Arguments invalidActionMessage : simpl never.
Arguments noInputMessage : simpl never.
Arguments missingPromptMessage : simpl never.
Arguments noApiKeyMessage : simpl never.

(** ** Vocabulary of the properties *)

(** The flag is given with a path: its first occurrence is followed by a
    non-empty argument. *)
Definition flagGiven (flag path : string) (args : list string) : Prop :=
  exists before after,
    args = (before ++ flag :: path :: after)%list /\ ~ In flag before /\ path <> "".

(** The flag is the last argument, and occurs nowhere before. *)
Definition flagTrailing (flag : string) (args : list string) : Prop :=
  exists before, args = (before ++ [flag])%list /\ ~ In flag before.

(** A step is a failure when the process neither completes [main] nor
    leaves with status 0. *)
Definition failed {A} (s : Step A) : Prop :=
  match s with
  | Ret _ _ => False
  | Exit code _ => code <> 0
  | Throw _ _ => True
  end.

(** The process after [output(failure error)]. *)
Definition reported (error : string) (p : Proc) : Proc :=
  {| stateFile := stateFile p;
     stdout := (stdout p ++ [POutput (failure error)])%list;
     calls := calls p |}.

(** A computation that touches neither the state file nor the service:
    it returns in the process state it started in, or it reports an error
    and leaves with status 1, or it throws. *)
Definition quiet {A} (m : M A) : Prop :=
  forall p,
    match m p with
    | Ret _ p' => p' = p
    | Exit code p' => code = 1 /\ exists error, p' = reported error p
    | Throw _ p' => p' = p
    end.

(** The call that opens the thread (lines 211-216). *)
Definition openCall (input : Input.t) (state : State.t) : Call :=
  match resumeTarget input state with
  | Some threadId => ResumeThread threadId (threadOptions input state)
  | None => StartThread (threadOptions input state)
  end.

(** [isNewThread] after lines 211-216. *)
Definition isNewThread (input : Input.t) (state : State.t) : bool :=
  match resumeTarget input state with
  | Some _ => false
  | None => true
  end.

(** The thread the service hands back for that call. *)
Definition openWith (codex : Codex) (input : Input.t) (state : State.t) : Exc Thread :=
  match resumeTarget input state with
  | Some threadId => resumeThread codex threadId (threadOptions input state)
  | None => startThread codex (threadOptions input state)
  end.

(** The process after an operation of the service was invoked. *)
Definition called (c : Call) (p : Proc) : Proc :=
  {| stateFile := stateFile p;
     stdout := stdout p;
     calls := (calls p ++ [c])%list |}.

(** The process after validation mode printed its report. *)
Definition validated (input : Input.t) (promptText : string) (p : Proc) : Proc :=
  {| stateFile := stateFile p;
     stdout := (stdout p ++ [PReport (report input promptText)])%list;
     calls := calls p |}.

(** The process after a successful exchange (lines 238-252). *)
Definition completed {json : JSON} (env : Env) (input : Input.t) (promptText : string)
           (turn : Turn) (p : Proc) : Proc :=
  let state := readState (stateFile p) in
  {| stateFile :=
       Some (JSON_stringify_State
               (newState env input state (isNewThread input state) (id turn)));
     stdout :=
       (stdout p ++ [POutput (Output.mk true (id turn) (responseText (result turn)) None true)])%list;
     calls :=
       (calls p ++ [openCall input state; Run (fullPrompt input promptText)])%list |}.

(** ** Examples: a runtime, files and a service *)

Module Demo.

Definition quoted (s : string) : string := dq ++ s ++ dq.

Definition field (name value : string) : list string :=
  ["  " ++ quoted name ++ ": " ++ value].

Definition optField (name : string) (value : option string) : list string :=
  match value with
  | Some v => field name (quoted v)
  | None => []
  end.

Definition optionalField (name : string) (value : Optional) : list string :=
  match value with
  | Str v => field name (quoted v)
  | Null => field name "null"
  | Undefined => []
  end.

Definition object (fields : list string) : string :=
  "{" ++ nl ++ String.concat ("," ++ nl) fields ++ nl ++ "}".

(** The text of a number that is an integer (an infinity is written
    [null]; the examples have no fraction). *)
Definition number (x : Number) : string :=
  match asInteger x with
  | Some z => NilZero.string_of_int (Z.to_int z)
  | None => "null"
  end.

(** The text of a record, for strings that need no escaping. *)
Definition stringifyState (s : State.t) : string :=
  object (optField "threadId" (State.threadId s)
          ++ optField "topic" (State.topic s)
          ++ optField "lastUsed" (State.lastUsed s)
          ++ match State.messageCount s with
             | Some n => field "messageCount" (number n)
             | None => []
             end
          ++ optField "workingDirectory" (State.workingDirectory s))%list.

Definition stringifyInput (i : Input.t) : string :=
  object (optionalField "action" (Input.action i)
          ++ optField "prompt" (Input.prompt i)
          ++ optField "context" (Input.context i)
          ++ optField "topic" (Input.topic i)
          ++ optField "workingDirectory" (Input.workingDirectory i)
          ++ optField "promptFile" (Input.promptFile i))%list.

(** The requests of the examples. *)
Definition askNew : Input.t :=
  Input.mk (Some "new") (Some "What is 2+2?") None None None None.
Definition askContinue : Input.t :=
  Input.mk (Some "continue") (Some "And now?") None None None None.
Definition askReview : Input.t :=
  Input.mk (Some "new") (Some "Review this") (Some "File a.ts") None (Some "/repo") None.
Definition askFromFile : Input.t :=
  Input.mk (Some "new") (Some "inline") None None None (Some "/tmp/field.txt").
Definition askEmptyContext : Input.t :=
  Input.mk (Some "new") (Some "Review this") (Some "") (Some "") (Some "") None.

Definition askNothing : Input.t :=
  Input.mk (Some "new") None None None None None.

Definition inputs : list Input.t :=
  [askNew; askContinue; askReview; askFromFile; askEmptyContext; askNothing].

(** A state file left by three turns on thread [t-7]. *)
Definition threeTurns : State.t :=
  State.mk (Some "t-7") (Some "sort review") (Some "2026-01-01T00:00:00.000Z")
           (Some (Finite 3 0)) (Some "/work").

Definition states : list State.t := [threeTurns].

Definition parseWith {A} (text : A -> string) (known : list A) (s : string) : Exc A :=
  match find (fun a => String.eqb (text a) s) known with
  | Some a => Ok a
  | None => Raise "Unexpected token"
  end.

(** The text [null], or else one of the known texts. *)
Definition parseInputWith (known : list Input.t) (s : string) : Exc ParsedInput :=
  if String.eqb s "null" then Ok NullInput
  else match parseWith stringifyInput known s with
       | Ok input => Ok (ObjectInput input)
       | Raise message => Raise message
       end.

Definition parseStateWith (known : list State.t) (s : string) : Exc ParsedState :=
  if String.eqb s "null" then Ok NullState
  else match parseWith stringifyState known s with
       | Ok state => Ok (ObjectState state)
       | Raise message => Raise message
       end.

(** A runtime that parses the texts of the examples. *)
Definition json : JSON :=
  {| JSON_parse_Input := parseInputWith inputs;
     JSON_parse_State := parseStateWith states;
     JSON_stringify_Input := stringifyInput;
     JSON_stringify_State := stringifyState;
     JSON_stringify_string := quoted |}.

Definition files (path : string) : Exc string :=
  if String.eqb path "/tmp/new.json" then Ok (stringifyInput askNew)
  else if String.eqb path "/tmp/continue.json" then Ok (stringifyInput askContinue)
  else if String.eqb path "/tmp/review.json" then Ok (stringifyInput askReview)
  else if String.eqb path "/tmp/fromfile.json" then Ok (stringifyInput askFromFile)
  else if String.eqb path "/tmp/empty.json" then Ok (stringifyInput askEmptyContext)
  else if String.eqb path "/tmp/nothing.json" then Ok (stringifyInput askNothing)
  else if String.eqb path "/tmp/flag.txt" then Ok "prompt of the flag"
  else if String.eqb path "/tmp/field.txt" then Ok "prompt of the field"
  else Raise "ENOENT: no such file or directory".

(** A service whose threads answer [4]; a started thread is [t-8]. *)
Definition thread (threadId : string) : Thread :=
  {| run := fun _ => Ok {| result := ResTurn "4"; id := Some threadId |} |}.

Definition codex : Codex :=
  {| startThread := fun _ => Ok (thread "t-8");
     resumeThread := fun threadId _ => Ok (thread threadId) |}.

(** A service that is down. *)
Definition down : Codex :=
  {| startThread := fun _ => Ok {| run := fun _ => Raise "503" |};
     resumeThread := fun _ _ => Ok {| run := fun _ => Raise "503" |} |}.

Definition env (args : list string) : Env :=
  {| argv := args;
     stdin_isTTY := true;
     stdin := Raise "EAGAIN";
     readFileSync := files;
     OPENAI_API_KEY := Some "sk-test";
     now := "2026-01-02T00:00:00.000Z";
     newCodex := fun _ => Ok codex |}.

(** The same with piped input. *)
Definition piped (args : list string) (text : string) : Env :=
  {| argv := args;
     stdin_isTTY := false;
     stdin := Ok text;
     readFileSync := files;
     OPENAI_API_KEY := Some "sk-test";
     now := "2026-01-02T00:00:00.000Z";
     newCodex := fun _ => Ok codex |}.

(** The same without credential, and with the service down. *)
Definition noKey (args : list string) : Env :=
  {| argv := args;
     stdin_isTTY := true;
     stdin := Raise "EAGAIN";
     readFileSync := files;
     OPENAI_API_KEY := None;
     now := "2026-01-02T00:00:00.000Z";
     newCodex := fun _ => Ok codex |}.

Definition outage (args : list string) : Env :=
  {| argv := args;
     stdin_isTTY := true;
     stdin := Raise "EAGAIN";
     readFileSync := files;
     OPENAI_API_KEY := Some "sk-test";
     now := "2026-01-02T00:00:00.000Z";
     newCodex := fun _ => Ok down |}.

(** A first run, and a run after three turns. *)
Definition fresh : Proc :=
  {| stateFile := None; stdout := []; calls := [] |}.
Definition later : Proc :=
  {| stateFile := Some (stringifyState threeTurns); stdout := []; calls := [] |}.

End Demo.

(** ** The earlier script (src/SKILL.md, lines 573-760)

    The text kept in [SKILL.md] is the script before the flags were added:
    the same declarations, [loadState], [saveState] and [output], and a
    [main] that reads standard input or else joins the arguments, checks the
    prompt and the credential, and runs the same [try] block (lines 688-758
    there are lines 192-261 of [scripts/codex.ts], character for character). *)

Section Legacy.
Context {json : JSON}.

Definition legacyNoInputMessage : string :=
  "No input provided. Pipe JSON or pass prompt as argument.".

Definition legacyInvalidJsonMessage : string := "Invalid JSON input".

(** Lines 631-650: standard input when it is not a terminal, else the
    arguments, which must not be empty. *)
Definition legacyReadInputData (env : Env) : M string :=
  if negb (stdin_isTTY env) then
    liftExc (stdin env)
  else
    let args := argv env in
    match args with
    | [] => fail legacyNoInputMessage
    | _ :: _ => ret (JSON_stringify_Input (simpleInput args))
    end.

(** Lines 652-662. *)
Definition legacyParseInput (inputData : string) : M ParsedInput :=
  match JSON_parse_Input inputData with
  | Ok input => ret input
  | Raise _ => fail legacyInvalidJsonMessage
  end.

(** [input.prompt], the first property read of the parsed value (line 664,
    outside any [try]): it throws on [null]. *)
Definition legacyProperties (input : ParsedInput) : M Input.t :=
  match input with
  | NullInput => throw (nullReadMessage "prompt")
  | PrimitiveInput _ => ret Input.empty
  | ObjectInput object => ret object
  end.

(** Lines 664-671: the prompt is the only field checked. *)
Definition legacyValidate (input : Input.t) : M string :=
  match whenTruthy (Input.prompt input) with
  | None => fail missingPromptMessage
  | Some promptText => ret promptText
  end.

(** Lines 673-758. *)
Definition legacyServe (env : Env) (input : Input.t) (promptText : string) : M unit :=
  match whenTruthy (OPENAI_API_KEY env) with
  | None => fail noApiKeyMessage
  | Some apiKey =>
      state <- loadState ;;
      codex <- liftExc (newCodex env apiKey) ;;
      tryCatch (exchange env codex state input promptText)
               (fun errorMessage => fail ("Codex error: " ++ errorMessage))
  end.

(** [main] of the earlier script (lines 630-758). *)
Definition legacyMain (env : Env) : M unit :=
  inputData <- legacyReadInputData env ;;
  parsed <- legacyParseInput inputData ;;
  input <- legacyProperties parsed ;;
  promptText <- legacyValidate input ;;
  legacyServe env input promptText.

End Legacy.

Arguments legacyNoInputMessage : simpl never.
Arguments legacyInvalidJsonMessage : simpl never.

(** ** More examples: two turns, and calls that throw *)

Module Turns.

(** A request typed as one empty argument. *)
Definition askEmpty : Input.t := simpleInput [""].

(** A request typed as arguments, with the flag of validation mode among them. *)
Definition askTyped : Input.t := simpleInput ["Check"; "this"; "--validate"].

(** A request whose action is [null]. *)
Definition askNullAction : Input.t :=
  Input.mk Null (Some "What is 2+2?") None None None None.

Definition inputs : list Input.t :=
  (Demo.inputs ++ [askEmpty; askTyped; askNullAction])%list.

(** What the first run of [Demo.askNew] leaves in the state file. *)
Definition firstTurn : State.t :=
  State.mk (Some "t-8") (Some "general review") (Some "2026-01-02T00:00:00.000Z")
           (Some (Finite 1 0)) None.

(** A state file whose count is [2^53]. *)
Definition manyTurns : State.t :=
  State.mk (Some "t-7") (Some "sort review") (Some "2026-01-01T00:00:00.000Z")
           (Some (Finite 9007199254740992 0)) (Some "/work").

Definition states : list State.t := [Demo.threeTurns; firstTurn; manyTurns].

Definition json : JSON :=
  {| JSON_parse_Input := Demo.parseInputWith inputs;
     JSON_parse_State := Demo.parseStateWith states;
     JSON_stringify_Input := Demo.stringifyInput;
     JSON_stringify_State := Demo.stringifyState;
     JSON_stringify_string := Demo.quoted |}.

(** Standard input is a pipe whose read throws. *)
Definition brokenPipe (args : list string) : Env :=
  {| argv := args;
     stdin_isTTY := false;
     stdin := Raise "EAGAIN: resource temporarily unavailable, read";
     readFileSync := Demo.files;
     OPENAI_API_KEY := Some "sk-test";
     now := "2026-01-02T00:00:00.000Z";
     newCodex := fun _ => Ok Demo.codex |}.

(** The constructor of the SDK throws. *)
Definition noBinary (args : list string) : Env :=
  {| argv := args;
     stdin_isTTY := true;
     stdin := Raise "EAGAIN";
     readFileSync := Demo.files;
     OPENAI_API_KEY := Some "sk-test";
     now := "2026-01-02T00:00:00.000Z";
     newCodex := fun _ => Raise "Unsupported platform" |}.

(** The credential is the empty string. *)
Definition emptyKey (args : list string) : Env :=
  {| argv := args;
     stdin_isTTY := true;
     stdin := Raise "EAGAIN";
     readFileSync := Demo.files;
     OPENAI_API_KEY := Some "";
     now := "2026-01-02T00:00:00.000Z";
     newCodex := fun _ => Ok Demo.codex |}.

(** A service that answers with a plain string. *)
Definition plain : Codex :=
  {| startThread := fun _ => Ok {| run := fun _ => Ok {| result := ResString "four"; id := Some "t-9" |} |};
     resumeThread := fun threadId _ =>
       Ok {| run := fun _ => Ok {| result := ResString "four"; id := Some threadId |} |} |}.


Definition afterManyTurns : Proc :=
  {| stateFile := Some (Demo.stringifyState manyTurns); stdout := []; calls := [] |}.

End Turns.

(** The examples run as the documentation says. *)
Example demo_new_run :
  final (main (json := Demo.json) (Demo.env ["--input-file"; "/tmp/new.json"]) Demo.later)
  = {| stateFile := Some (Demo.stringifyState
         (State.mk (Some "t-8") (Some "sort review") (Some "2026-01-02T00:00:00.000Z")
                   (Some (Finite 1 0)) (Some "/work")));
       stdout := [POutput (Output.mk true (Some "t-8") (Some "4") None true)];
       calls := [StartThread {| skipGitRepoCheck := true; opt_workingDirectory := Some "/work" |};
                 Run "What is 2+2?"] |}.
Proof. vm_compute. reflexivity. Qed.

Example demo_continue_run :
  final (main (json := Demo.json) (Demo.env ["--input-file"; "/tmp/continue.json"]) Demo.later)
  = {| stateFile := Some (Demo.stringifyState
         (State.mk (Some "t-7") (Some "sort review") (Some "2026-01-02T00:00:00.000Z")
                   (Some (Finite 4 0)) (Some "/work")));
       stdout := [POutput (Output.mk true (Some "t-7") (Some "4") None true)];
       calls := [ResumeThread "t-7" {| skipGitRepoCheck := true; opt_workingDirectory := Some "/work" |};
                 Run "And now?"] |}.
Proof. vm_compute. reflexivity. Qed.

(** ** Command-line flags *)

Local Open Scope list_scope.
Unset Implicit Arguments.

Lemma truthy_nonempty (s : string) : truthy s = true <-> s <> "".
Proof.
  destruct s; simpl; split; intro H; congruence.
Qed.

Lemma whenTruthy_Some (o : option string) (s : string) :
  whenTruthy o = Some s <-> o = Some s /\ s <> "".
Proof.
  destruct o as [a|]; simpl.
  - destruct a as [|c a]; simpl; split.
    + discriminate.
    + intros [E N]. inversion E; subst. now contradiction N.
    + intros E. inversion E; subst. split; [reflexivity | discriminate].
    + intros [E _]. exact E.
  - split; [discriminate | intros [E _]; discriminate].
Qed.

Lemma whenTruthy_None (o : option string) :
  whenTruthy o = None <-> truthyO o = false.
Proof.
  destruct o as [[|c a]|]; simpl; split; congruence.
Qed.

Lemma whenTruthy_truthy (o : option string) :
  truthyO o = true -> whenTruthy o = o.
Proof.
  destruct o as [[|c a]|]; simpl; congruence.
Qed.

Lemma indexOf_first (flag : string) (before rest : list string) :
  ~ In flag before ->
  indexOf flag (before ++ flag :: rest) = Some (length before).
Proof.
  induction before as [|a before IH]; simpl; intros Hnot.
  - now rewrite String.eqb_refl.
  - destruct (String.eqb_spec a flag) as [->|_].
    + exfalso. apply Hnot. now left.
    + rewrite IH; [reflexivity | intros Hin; apply Hnot; now right].
Qed.

Lemma indexOf_split (flag : string) (args : list string) (i : nat) :
  indexOf flag args = Some i ->
  exists before rest,
    args = before ++ flag :: rest /\ length before = i /\ ~ In flag before.
Proof.
  revert i. induction args as [|a args IH]; simpl; intros i H; [discriminate|].
  destruct (String.eqb_spec a flag) as [->|Hne].
  - inversion H; subst. exists [], args. simpl. auto.
  - destruct (indexOf flag args) as [j|] eqn:E; [|discriminate].
    inversion H; subst.
    destruct (IH j eq_refl) as (before & rest & -> & Hlen & Hnot).
    exists (a :: before), rest. simpl. repeat split; [congruence|].
    intros [Heq|Hin]; [now apply Hne | now apply Hnot].
Qed.

Lemma indexOf_absent (flag : string) (args : list string) :
  ~ In flag args -> indexOf flag args = None.
Proof.
  induction args as [|a args IH]; simpl; intros Hnot; [reflexivity|].
  destruct (String.eqb_spec a flag) as [->|_].
  - exfalso. apply Hnot. now left.
  - rewrite IH; [reflexivity | intros Hin; apply Hnot; now right].
Qed.

Lemma nth_error_after (before : list string) (flag : string) (rest : list string) :
  nth_error (before ++ flag :: rest) (length before + 1) = nth_error rest 0.
Proof.
  induction before as [|a before IH]; simpl; [reflexivity | exact IH].
Qed.

(** The lookup of lines 68 and 115 finds a path exactly when the flag is
    given with one. *)
Lemma argAfter_given (flag path : string) (args : list string) :
  argAfter (indexOf flag args) args = Some path <-> flagGiven flag path args.
Proof.
  split.
  - unfold argAfter. destruct (indexOf flag args) as [i|] eqn:E; [|discriminate].
    intros H. apply whenTruthy_Some in H. destruct H as [Hnth Hne].
    destruct (indexOf_split _ _ _ E) as (before & rest & -> & <- & Hnot).
    rewrite nth_error_after in Hnth.
    destruct rest as [|r rest]; simpl in Hnth; [discriminate|].
    inversion Hnth; subst. exists before, rest. auto.
  - intros (before & after & -> & Hnot & Hne).
    unfold argAfter. rewrite indexOf_first by assumption.
    rewrite nth_error_after. simpl nth_error.
    apply whenTruthy_Some. split; [reflexivity | assumption].
Qed.

Lemma argAfter_trailing (flag : string) (args : list string) :
  flagTrailing flag args -> argAfter (indexOf flag args) args = None.
Proof.
  intros (before & -> & Hnot).
  unfold argAfter. rewrite indexOf_first by assumption.
  now rewrite nth_error_after.
Qed.

Lemma argAfter_absent (flag : string) (args : list string) :
  ~ In flag args -> argAfter (indexOf flag args) args = None.
Proof.
  intros Hnot. unfold argAfter. now rewrite indexOf_absent.
Qed.

(** ** Computations that leave the state file and the service alone *)

Section Quiet.
Context {json : JSON}.

Lemma quiet_ret {A} (a : A) : quiet (ret a).
Proof. intros p. reflexivity. Qed.

Lemma quiet_throw {A} (message : string) : quiet (@throw A message).
Proof. intros p. reflexivity. Qed.

Lemma quiet_liftExc {A} (e : Exc A) : quiet (liftExc e).
Proof. destruct e; [apply quiet_ret | apply quiet_throw]. Qed.

Lemma fail_run {A} (error : string) (p : Proc) :
  @fail A error p = Exit 1 (reported error p).
Proof. reflexivity. Qed.

Lemma quiet_fail {A} (error : string) : quiet (@fail A error).
Proof. intros p. rewrite fail_run. split; [reflexivity | now exists error]. Qed.

Lemma quiet_bind {A B} (m : M A) (k : A -> M B) :
  quiet m -> (forall a, quiet (k a)) -> quiet (bind m k).
Proof.
  intros Hm Hk p. unfold bind. specialize (Hm p).
  destruct (m p) as [a p1|code p1|message p1]; subst; auto.
  apply Hk.
Qed.

Lemma quiet_readInputData (env : Env) : quiet (readInputData env).
Proof.
  unfold readInputData.
  destruct (argAfter _ _) as [inputPath|].
  - destruct (readFileSync env inputPath); [apply quiet_ret | apply quiet_fail].
  - destruct (negb (stdin_isTTY env)); [apply quiet_liftExc|].
    destruct (simpleArgs (argv env)); [apply quiet_ret | apply quiet_fail].
Qed.

Lemma quiet_parseInput (inputData : string) : quiet (parseInput inputData).
Proof.
  unfold parseInput.
  destruct (JSON_parse_Input inputData); [apply quiet_ret | apply quiet_fail].
Qed.

Lemma quiet_promptFromFile (env : Env) (promptPath : string) (input : ParsedInput) :
  quiet (promptFromFile env promptPath input).
Proof.
  unfold promptFromFile.
  destruct (readFileSync env promptPath); [|apply quiet_fail].
  destruct input; [apply quiet_fail | apply quiet_fail | apply quiet_ret].
Qed.

Lemma quiet_readPromptFile (env : Env) (input : ParsedInput) :
  quiet (readPromptFile env input).
Proof.
  unfold readPromptFile.
  destruct (argAfter _ _); [apply quiet_promptFromFile|].
  destruct input as [|assignMessage|object];
    [apply quiet_throw | apply quiet_ret |].
  destruct (whenTruthy _); [apply quiet_promptFromFile | apply quiet_ret].
Qed.

Lemma quiet_validate (input : Input.t) : quiet (validate input).
Proof.
  unfold validate.
  destruct (negb _); [apply quiet_fail|].
  destruct (whenTruthy _); [apply quiet_ret | apply quiet_fail].
Qed.

Lemma quiet_resolveRequest (env : Env) : quiet (resolveRequest env).
Proof.
  unfold resolveRequest.
  apply quiet_bind; [apply quiet_readInputData | intros inputData].
  apply quiet_bind; [apply quiet_parseInput | intros parsed].
  apply quiet_bind; [apply quiet_readPromptFile | intros input].
  apply quiet_bind; [apply quiet_validate | intros promptText].
  apply quiet_ret.
Qed.

(** A validated request leaves the process where it was. *)
Lemma resolveRequest_Ret (env : Env) (p p' : Proc) (request : Input.t * string) :
  resolveRequest env p = Ret request p' -> p' = p.
Proof.
  intros H. pose proof (quiet_resolveRequest env p) as Q. now rewrite H in Q.
Qed.

(** [main] on a validated request is [serve] on it. *)
Lemma main_serve (env : Env) (p : Proc) (input : Input.t) (promptText : string) :
  resolveRequest env p = Ret (input, promptText) p ->
  main env p = serve env input promptText p.
Proof.
  intros H. unfold main, bind. now rewrite H.
Qed.

(** What validation lets through. *)
Lemma validate_Ret (input : Input.t) (promptText : string) (p p' : Proc) :
  validate input p = Ret promptText p' ->
  (Input.action input = Some "new" \/ Input.action input = Some "continue")
  /\ Input.prompt input = Some promptText /\ promptText <> "".
Proof.
  unfold validate.
  destruct (isString (Input.action input) "new") eqn:Enew;
    [|destruct (isString (Input.action input) "continue") eqn:Econt]; simpl;
    try (rewrite fail_run; discriminate).
  - destruct (whenTruthy (Input.prompt input)) as [t|] eqn:Ep;
      [|rewrite fail_run; discriminate].
    intros H. inversion H; subst. apply whenTruthy_Some in Ep.
    split; [left|exact Ep].
    unfold isString in Enew. destruct (Input.action input) as [| |a]; try discriminate.
    apply String.eqb_eq in Enew. now subst.
  - destruct (whenTruthy (Input.prompt input)) as [t|] eqn:Ep;
      [|rewrite fail_run; discriminate].
    intros H. inversion H; subst. apply whenTruthy_Some in Ep.
    split; [right|exact Ep].
    unfold isString in Econt. destruct (Input.action input) as [| |a]; try discriminate.
    apply String.eqb_eq in Econt. now subst.
Qed.

Lemma resolveRequest_valid (env : Env) (p p' : Proc) (input : Input.t) (promptText : string) :
  resolveRequest env p = Ret (input, promptText) p' ->
  (Input.action input = Some "new" \/ Input.action input = Some "continue")
  /\ Input.prompt input = Some promptText /\ promptText <> "".
Proof.
  unfold resolveRequest, bind.
  destruct (readInputData env p) as [inputData p1| |]; try discriminate.
  destruct (parseInput inputData p1) as [parsed p2| |]; try discriminate.
  destruct (readPromptFile env parsed p2) as [input' p3| |]; try discriminate.
  destruct (validate input' p3) as [promptText' p4| |] eqn:V; try discriminate.
  intros H. inversion H; subst. eapply validate_Ret; eassumption.
Qed.

End Quiet.

(** ** What [serve] does, case by case *)

Section Serve.
Context {json : JSON}.

Lemma openThread_run (codex : Codex) (input : Input.t) (state : State.t) (p : Proc) :
  openThread codex input state p =
  match openWith codex input state with
  | Ok thread => Ret (thread, isNewThread input state) (called (openCall input state) p)
  | Raise message => Throw message (called (openCall input state) p)
  end.
Proof.
  unfold openThread, openWith, openCall, isNewThread.
  destruct (resumeTarget input state) as [threadId|]; unfold bind; simpl.
  - destruct (resumeThread codex threadId _); reflexivity.
  - destruct (startThread codex _); reflexivity.
Qed.

Lemma readState_object (file : option string) (state : State.t) :
  loadedState file = ObjectState state -> readState file = state.
Proof.
  intros H. unfold readState. now rewrite H.
Qed.

Lemma exchange_run (env : Env) (codex : Codex) (input : Input.t)
      (promptText : string) (p : Proc) :
  exchange env codex (loadedState (stateFile p)) input promptText p =
  match loadedState (stateFile p) with
  | NullState => Throw (nullReadMessage "workingDirectory") p
  | ObjectState _ =>
      match openWith codex input (readState (stateFile p)) with
      | Raise message =>
          Throw message (called (openCall input (readState (stateFile p))) p)
      | Ok thread =>
          match run thread (fullPrompt input promptText) with
          | Raise message =>
              Throw message (called (Run (fullPrompt input promptText))
                                   (called (openCall input (readState (stateFile p))) p))
          | Ok turn => Ret tt (completed env input promptText turn p)
          end
      end
  end.
Proof.
  unfold exchange. unfold bind at 1.
  destruct (loadedState (stateFile p)) as [|state] eqn:Hloaded; [reflexivity|].
  rewrite (readState_object _ _ Hloaded).
  unfold properties, ret. unfold bind. rewrite openThread_run.
  destruct (openWith codex input state) as [thread|message]; [|reflexivity].
  simpl. destruct (run thread _) as [turn|message]; simpl; [|reflexivity].
  unfold completed, saveState, output, print. simpl.
  rewrite (readState_object _ _ Hloaded).
  now rewrite <- app_assoc.
Qed.

(** Every way [serve] can end. *)
Lemma serve_run (env : Env) (input : Input.t) (promptText : string) (p : Proc) :
  serve env input promptText p =
  if includes "--validate" (argv env) then Exit 0 (validated input promptText p)
  else
    match whenTruthy (OPENAI_API_KEY env) with
    | None => Exit 1 (reported noApiKeyMessage p)
    | Some apiKey =>
        match newCodex env apiKey with
        | Raise message => Throw message p
        | Ok codex =>
            match loadedState (stateFile p) with
            | NullState =>
                Exit 1 (reported ("Codex error: " ++ nullReadMessage "workingDirectory")%string p)
            | ObjectState _ =>
                let state := readState (stateFile p) in
                match openWith codex input state with
                | Raise message =>
                    Exit 1 (reported ("Codex error: " ++ message)%string
                                     (called (openCall input state) p))
                | Ok thread =>
                    match run thread (fullPrompt input promptText) with
                    | Raise message =>
                        Exit 1 (reported ("Codex error: " ++ message)%string
                                         (called (Run (fullPrompt input promptText))
                                                 (called (openCall input state) p)))
                    | Ok turn => Ret tt (completed env input promptText turn p)
                    end
                end
            end
        end
    end.
Proof.
  unfold serve.
  destruct (includes "--validate" (argv env)); [reflexivity|].
  destruct (whenTruthy (OPENAI_API_KEY env)) as [apiKey|]; [|reflexivity].
  unfold bind at 1. unfold loadState.
  unfold bind at 1.
  destruct (newCodex env apiKey) as [codex|message]; [|reflexivity].
  unfold liftExc, ret, tryCatch. rewrite exchange_run.
  destruct (loadedState (stateFile p)) as [|state]; [reflexivity|].
  cbv zeta.
  destruct (openWith codex input _) as [thread|message]; [|reflexivity].
  destruct (run thread _) as [turn|message]; reflexivity.
Qed.

(** A run of [serve] that completes: the last case of [serve_run]. *)
Lemma serve_Ret (env : Env) (input : Input.t) (promptText : string) (p p' : Proc) :
  serve env input promptText p = Ret tt p' ->
  includes "--validate" (argv env) = false /\
  exists apiKey codex thread turn,
    whenTruthy (OPENAI_API_KEY env) = Some apiKey /\
    newCodex env apiKey = Ok codex /\
    openWith codex input (readState (stateFile p)) = Ok thread /\
    run thread (fullPrompt input promptText) = Ok turn /\
    p' = completed env input promptText turn p.
Proof.
  rewrite serve_run.
  destruct (includes "--validate" (argv env)); [discriminate|].
  destruct (whenTruthy (OPENAI_API_KEY env)) as [apiKey|]; [|discriminate].
  destruct (newCodex env apiKey) as [codex|message] eqn:EC; [|discriminate].
  destruct (loadedState (stateFile p)) as [|state]; [discriminate|].
  cbv zeta.
  destruct (openWith codex input _) as [thread|message] eqn:EO; [|discriminate].
  destruct (run thread _) as [turn|message] eqn:ER; [|discriminate].
  intros H. inversion H; subst. split; [reflexivity|].
  exists apiKey, codex, thread, turn. auto.
Qed.

(** A run of [serve] that completes read a state file that does not hold
    [null]. *)
Lemma serve_Ret_loaded (env : Env) (input : Input.t) (promptText : string) (p p' : Proc) :
  serve env input promptText p = Ret tt p' ->
  loadedState (stateFile p) = ObjectState (readState (stateFile p)).
Proof.
  rewrite serve_run.
  destruct (includes "--validate" (argv env)); [discriminate|].
  destruct (whenTruthy (OPENAI_API_KEY env)) as [apiKey|]; [|discriminate].
  destruct (newCodex env apiKey) as [codex|message]; [|discriminate].
  destruct (loadedState (stateFile p)) as [|state] eqn:Hloaded; [discriminate|].
  intros _. now rewrite (readState_object _ _ Hloaded).
Qed.

(** [serve] changes the state file only when it completes. *)
Lemma serve_keeps (env : Env) (input : Input.t) (promptText : string) (p : Proc) :
  match serve env input promptText p with
  | Ret _ _ => True
  | Exit _ p' => stateFile p' = stateFile p
  | Throw _ p' => stateFile p' = stateFile p
  end.
Proof.
  rewrite serve_run.
  destruct (includes "--validate" (argv env)); [reflexivity|].
  destruct (whenTruthy (OPENAI_API_KEY env)) as [apiKey|]; [|reflexivity].
  destruct (newCodex env apiKey) as [codex|message]; [|reflexivity].
  destruct (loadedState (stateFile p)) as [|state]; [reflexivity|].
  cbv zeta.
  destruct (openWith codex input _) as [thread|message]; [|reflexivity].
  destruct (run thread _) as [turn|message]; [exact I | reflexivity].
Qed.

End Serve.

(** ** Where the raw input comes from (lines 61-98) *)

Lemma argAfter_none_not_given (flag : string) (args : list string) :
  argAfter (indexOf flag args) args = None <-> forall path, ~ flagGiven flag path args.
Proof.
  split.
  - intros H path G. apply argAfter_given in G. congruence.
  - intros H. destruct (argAfter (indexOf flag args) args) as [path|] eqn:E; [|reflexivity].
    apply argAfter_given in E. now apply H in E.
Qed.

Lemma simpleArgs_first (args : list string) :
  simpleArgs args = true <->
  exists first rest, args = first :: rest /\ startsWith "--" first = false.
Proof.
  destruct args as [|first rest]; simpl; split.
  - discriminate.
  - intros (f & r & E & _). discriminate.
  - intros H. exists first, rest. split; [reflexivity | now apply negb_true_iff].
  - intros (f & r & E & H). inversion E; subst. now apply negb_true_iff.
Qed.

(** C4, as amended.  The raw input is located by first match: a first
    [--input-file] followed by a non-empty path decides alone (its content,
    or a read error naming it, whatever standard input and the other
    arguments are); otherwise standard input is read when it is not a
    terminal; otherwise, when there is a first argument and it does not start
    with two dashes, all the arguments joined by a space become the prompt of
    a [new] request; otherwise (no argument, or a first argument that starts
    with two dashes) the invocation reports that no input was provided. *)
Theorem input_source_precedence {json : JSON} (env : Env) (p : Proc) :
  (forall path,
      flagGiven "--input-file" path (argv env) ->
      readInputData env p =
      match readFileSync env path with
      | Ok inputData => Ret inputData p
      | Raise errorMessage => Exit 1 (reported (readInputMessage path errorMessage) p)
      end)
  /\ ((forall path, ~ flagGiven "--input-file" path (argv env)) ->
      (stdin_isTTY env = false ->
       readInputData env p = liftExc (stdin env) p)
      /\ (stdin_isTTY env = true ->
          forall first rest,
            argv env = first :: rest -> startsWith "--" first = false ->
            readInputData env p =
            Ret (JSON_stringify_Input
                   (Input.mk (Some "new") (Some (join " " (argv env))) None None None None))
                p)
      /\ (stdin_isTTY env = true ->
          (argv env = [] \/
           exists first rest, argv env = first :: rest /\ startsWith "--" first = true) ->
          readInputData env p = Exit 1 (reported noInputMessage p))).
Proof.
  split.
  - intros path G. apply argAfter_given in G.
    unfold readInputData. rewrite G.
    destruct (readFileSync env path); reflexivity.
  - intros Hnone. apply argAfter_none_not_given in Hnone.
    unfold readInputData. rewrite Hnone.
    split; [|split].
    + intros ->. reflexivity.
    + intros -> first rest E Hfirst. simpl.
      assert (S : simpleArgs (argv env) = true)
        by (apply simpleArgs_first; eauto).
      rewrite S. reflexivity.
    + intros -> Hflag. simpl.
      assert (S : simpleArgs (argv env) = false).
      { destruct Hflag as [E | (first & rest & E & Hfirst)]; rewrite E; simpl.
        - reflexivity.
        - now rewrite Hfirst. }
      rewrite S. reflexivity.
Qed.

Lemma input_source_precedence_witness :
  readInputData (json := Demo.json)
    (Demo.piped ["--input-file"; "/tmp/new.json"; "extra"] "piped text") Demo.fresh
  = Ret (Demo.stringifyInput Demo.askNew) Demo.fresh
  /\ readInputData (json := Demo.json) (Demo.piped ["--validate"] "piped text") Demo.fresh
     = Ret "piped text" Demo.fresh
  /\ readInputData (json := Demo.json) (Demo.env ["What"; "is"; "2+2?"]) Demo.fresh
     = Ret (Demo.stringifyInput Demo.askNew) Demo.fresh
  /\ readInputData (json := Demo.json) (Demo.env []) Demo.fresh
     = Exit 1 (reported noInputMessage Demo.fresh).
Proof.
  split; [|split; [|split]].
  - apply (proj1 (input_source_precedence (json := Demo.json)
                    (Demo.piped ["--input-file"; "/tmp/new.json"; "extra"] "piped text")
                    Demo.fresh) "/tmp/new.json").
    exists [], ["extra"]. simpl. repeat split; [tauto | discriminate].
  - apply (proj2 (input_source_precedence (json := Demo.json)
                    (Demo.piped ["--validate"] "piped text") Demo.fresh)).
    + apply argAfter_none_not_given. reflexivity.
    + reflexivity.
  - apply (proj2 (input_source_precedence (json := Demo.json)
                    (Demo.env ["What"; "is"; "2+2?"]) Demo.fresh)) with (first := "What") (rest := ["is"; "2+2?"]).
    + apply argAfter_none_not_given. reflexivity.
    + reflexivity.
    + reflexivity.
    + reflexivity.
  - apply (proj2 (input_source_precedence (json := Demo.json) (Demo.env []) Demo.fresh)).
    + apply argAfter_none_not_given. reflexivity.
    + reflexivity.
    + left. reflexivity.
Defined.

(** C4 as stated fails: with a terminal as standard input and the arguments
    [--validate hello], an argument that does not start with two dashes is
    present, yet nothing is synthesized and the invocation reports that no
    input was provided (line 87 looks at the first argument only). *)
Lemma positional_after_flag_is_no_input :
  In "hello" (argv (Demo.env ["--validate"; "hello"]))
  /\ startsWith "--" "hello" = false
  /\ argAfter (indexOf "--input-file" ["--validate"; "hello"]) ["--validate"; "hello"] = None
  /\ stdin_isTTY (Demo.env ["--validate"; "hello"]) = true
  /\ main (json := Demo.json) (Demo.env ["--validate"; "hello"]) Demo.fresh
     = Exit 1 (reported noInputMessage Demo.fresh).
Proof.
  repeat split; simpl; auto.
Qed.

(** ** The prompt file (lines 114-143) *)

Lemma promptFromFile_run (env : Env) (promptPath : string)
      (input : Input.t) (p : Proc) :
  promptFromFile env promptPath input p =
  match readFileSync env promptPath with
  | Ok content => Ret (Input.set_prompt content input) p
  | Raise errorMessage => Exit 1 (reported (readPromptMessage promptPath errorMessage) p)
  end.
Proof.
  unfold promptFromFile. destruct (readFileSync env promptPath); reflexivity.
Qed.

(** The file the prompt is taken from: the path after the flag, or else the
    non-empty [promptFile] of the input. *)
Lemma readPromptFile_chosen (env : Env) (input : Input.t) (path : string) :
  flagGiven "--prompt-file" path (argv env)
  \/ ((forall q, ~ flagGiven "--prompt-file" q (argv env))
      /\ Input.promptFile input = Some path /\ path <> "") ->
  readPromptFile env input = promptFromFile env path input.
Proof.
  unfold readPromptFile. intros [G | (Hnone & Hfield & Hne)].
  - apply argAfter_given in G. now rewrite G.
  - apply argAfter_none_not_given in Hnone. rewrite Hnone.
    assert (W : whenTruthy (Input.promptFile input) = Some path)
      by (apply whenTruthy_Some; auto).
    now rewrite W.
Qed.

(** C5.  When a prompt file is specified (by a first [--prompt-file] followed
    by a non-empty path, or else by a non-empty [promptFile] in the parsed
    input), its content becomes the prompt, whatever prompt the input had:
    the flag is looked at first, so with both the file of the flag is the one
    read; and when that file cannot be read, the invocation ends with status 1
    and an error that contains the path. *)
Theorem prompt_file_replaces_prompt {json : JSON} (env : Env) (p : Proc)
        (inputData : string) (parsed : Input.t) (path : string) :
  readInputData env p = Ret inputData p ->
  JSON_parse_Input inputData = Ok parsed ->
  flagGiven "--prompt-file" path (argv env)
  \/ ((forall q, ~ flagGiven "--prompt-file" q (argv env))
      /\ Input.promptFile parsed = Some path /\ path <> "") ->
  match readFileSync env path with
  | Ok content =>
      readPromptFile env parsed p = Ret (Input.set_prompt content parsed) p
      /\ Input.prompt (Input.set_prompt content parsed) = Some content
      /\ (forall input promptText p',
             resolveRequest env p = Ret (input, promptText) p' ->
             input = Input.set_prompt content parsed /\ promptText = content)
  | Raise errorMessage =>
      main env p = Exit 1 (reported (readPromptMessage path errorMessage) p)
      /\ exists before after,
          readPromptMessage path errorMessage = (before ++ path ++ after)%string
  end.
Proof.
  intros Hread Hparse Hchosen.
  pose proof (readPromptFile_chosen env parsed path Hchosen) as Hfile.
  assert (Hresolve : resolveRequest env p =
                     bind (promptFromFile env path parsed)
                          (fun input => bind (validate input)
                                             (fun promptText => ret (input, promptText))) p).
  { unfold resolveRequest. unfold bind at 1. rewrite Hread.
    unfold bind at 1. unfold parseInput. rewrite Hparse. simpl.
    now rewrite Hfile. }
  destruct (readFileSync env path) as [content|errorMessage] eqn:E.
  - split; [|split].
    + rewrite Hfile, promptFromFile_run, E. reflexivity.
    + reflexivity.
    + intros input promptText p'. rewrite Hresolve.
      unfold bind at 1. rewrite promptFromFile_run, E.
      unfold bind.
      destruct (validate (Input.set_prompt content parsed) p)
        as [t p1| |] eqn:V; try discriminate.
      intros H. inversion H; subst.
      apply validate_Ret in V. destruct V as (_ & Hp & _).
      simpl in Hp. inversion Hp; subst. split; reflexivity.
  - split.
    + unfold main. unfold bind at 1. rewrite Hresolve.
      unfold bind at 1. rewrite promptFromFile_run, E. reflexivity.
    + exists ("Failed to read prompt file " ++ dq)%string,
             (dq ++ ": " ++ errorMessage)%string.
      reflexivity.
Qed.

Lemma prompt_file_replaces_prompt_witness :
  (readPromptFile
     (Demo.env ["--input-file"; "/tmp/fromfile.json"; "--prompt-file"; "/tmp/flag.txt"])
     Demo.askFromFile Demo.fresh
   = Ret (Input.set_prompt "prompt of the flag" Demo.askFromFile) Demo.fresh
   /\ Input.prompt (Input.set_prompt "prompt of the flag" Demo.askFromFile)
      = Some "prompt of the flag"
   /\ (forall input promptText p',
          resolveRequest (json := Demo.json)
            (Demo.env ["--input-file"; "/tmp/fromfile.json"; "--prompt-file"; "/tmp/flag.txt"])
            Demo.fresh = Ret (input, promptText) p' ->
          input = Input.set_prompt "prompt of the flag" Demo.askFromFile
          /\ promptText = "prompt of the flag"))
  /\ (main (json := Demo.json)
        (Demo.env ["--input-file"; "/tmp/new.json"; "--prompt-file"; "/tmp/missing.txt"])
        Demo.fresh
      = Exit 1 (reported (readPromptMessage "/tmp/missing.txt"
                                            "ENOENT: no such file or directory")
                         Demo.fresh)
      /\ exists before after,
          readPromptMessage "/tmp/missing.txt" "ENOENT: no such file or directory"
          = (before ++ "/tmp/missing.txt" ++ after)%string).
Proof.
  split.
  - apply (prompt_file_replaces_prompt (json := Demo.json)
             (Demo.env ["--input-file"; "/tmp/fromfile.json"; "--prompt-file"; "/tmp/flag.txt"])
             Demo.fresh (Demo.stringifyInput Demo.askFromFile)
             Demo.askFromFile "/tmp/flag.txt").
    + reflexivity.
    + reflexivity.
    + left. exists ["--input-file"; "/tmp/fromfile.json"], [].
      simpl. repeat split; [|discriminate].
      intros [H|[H|[]]]; discriminate.
  - apply (prompt_file_replaces_prompt (json := Demo.json)
             (Demo.env ["--input-file"; "/tmp/new.json"; "--prompt-file"; "/tmp/missing.txt"])
             Demo.fresh (Demo.stringifyInput Demo.askNew)
             Demo.askNew "/tmp/missing.txt").
    + reflexivity.
    + reflexivity.
    + left. exists ["--input-file"; "/tmp/new.json"], [].
      simpl. repeat split; [|discriminate].
      intros [H|[H|[]]]; discriminate.
Defined.

(** ** Flags that come last (lines 68 and 115) *)

Lemma reported_inj (e1 e2 : string) (p : Proc) :
  reported e1 p = reported e2 p -> e1 = e2.
Proof.
  unfold reported. intros H. inversion H as [Hout].
  apply app_inv_head in Hout. now inversion Hout.
Qed.

(** C9, as amended.  A first [--input-file] that is the last argument is
    ignored: the input is taken from standard input when it is not a
    terminal, else from the arguments when the first does not start with two
    dashes, else the invocation reports that no input was provided; no
    file-read error is reported.  A first [--prompt-file] that is the last
    argument is ignored in the same way: the prompt of the input is left as
    it is when the input has no non-empty [promptFile], and is still taken
    from the file of that field when it has one.  A prompt-file error is
    reported only for a path carried by the flag or by the field, whose read
    failed. *)
Theorem trailing_flag_is_ignored {json : JSON} (env : Env) (input : Input.t) (p : Proc) :
  (flagTrailing "--input-file" (argv env) ->
   readInputData env p =
   (if stdin_isTTY env
    then if simpleArgs (argv env)
         then Ret (JSON_stringify_Input (simpleInput (argv env))) p
         else Exit 1 (reported noInputMessage p)
    else liftExc (stdin env) p)
   /\ forall path errorMessage,
       readInputData env p <> Exit 1 (reported (readInputMessage path errorMessage) p))
  /\ (flagTrailing "--prompt-file" (argv env) ->
      (truthyO (Input.promptFile input) = false ->
       readPromptFile env input p = Ret input p)
      /\ (forall path,
             Input.promptFile input = Some path -> path <> "" ->
             readPromptFile env input p = promptFromFile env path input p))
  /\ (forall code p',
         readPromptFile env input p = Exit code p' ->
         exists path errorMessage,
           (flagGiven "--prompt-file" path (argv env)
            \/ (Input.promptFile input = Some path /\ path <> ""))
           /\ readFileSync env path = Raise errorMessage
           /\ code = 1
           /\ p' = reported (readPromptMessage path errorMessage) p).
Proof.
  split; [|split].
  - intros T. apply argAfter_trailing in T.
    assert (E : readInputData env p =
                (if stdin_isTTY env
                 then if simpleArgs (argv env)
                      then Ret (JSON_stringify_Input (simpleInput (argv env))) p
                      else Exit 1 (reported noInputMessage p)
                 else liftExc (stdin env) p)).
    { unfold readInputData. rewrite T.
      destruct (stdin_isTTY env); simpl; [|reflexivity].
      destruct (simpleArgs (argv env)); reflexivity. }
    split; [exact E|].
    intros path errorMessage. rewrite E.
    destruct (stdin_isTTY env).
    + destruct (simpleArgs (argv env)); [discriminate|].
      intros H.
      assert (Hp : reported noInputMessage p
                   = reported (readInputMessage path errorMessage) p) by congruence.
      apply reported_inj in Hp.
      unfold noInputMessage, readInputMessage in Hp. simpl in Hp. discriminate.
    + destruct (stdin env); discriminate.
  - intros T. apply argAfter_trailing in T.
    unfold readPromptFile. rewrite T. split.
    + intros F. apply whenTruthy_None in F. now rewrite F.
    + intros path Hfield Hne.
      assert (W : whenTruthy (Input.promptFile input) = Some path)
        by (apply whenTruthy_Some; auto).
      now rewrite W.
  - intros code p'. unfold readPromptFile.
    destruct (argAfter _ _) as [path|] eqn:A.
    + apply argAfter_given in A. rewrite promptFromFile_run.
      destruct (readFileSync env path) as [content|errorMessage] eqn:R; [discriminate|].
      intros H. inversion H; subst. exists path, errorMessage. auto.
    + destruct (whenTruthy (Input.promptFile input)) as [path|] eqn:W; [|discriminate].
      apply whenTruthy_Some in W. rewrite promptFromFile_run.
      destruct (readFileSync env path) as [content|errorMessage] eqn:R; [discriminate|].
      intros H. inversion H; subst. exists path, errorMessage. auto.
Qed.

Lemma trailing_flag_is_ignored_witness :
  (readInputData (json := Demo.json) (Demo.piped ["--input-file"] "piped text") Demo.fresh
   = Ret "piped text" Demo.fresh
   /\ forall path errorMessage,
       readInputData (json := Demo.json) (Demo.piped ["--input-file"] "piped text") Demo.fresh
       <> Exit 1 (reported (readInputMessage path errorMessage) Demo.fresh))
  /\ (readPromptFile (Demo.env ["--input-file"; "/tmp/new.json"; "--prompt-file"])
                     Demo.askNew Demo.fresh
      = Ret Demo.askNew Demo.fresh)
  /\ (exists path errorMessage,
         (flagGiven "--prompt-file" path ["--prompt-file"; "/tmp/missing.txt"]
          \/ (Input.promptFile Demo.askNew = Some path /\ path <> ""))
         /\ Demo.files path = Raise errorMessage
         /\ 1 = 1
         /\ reported (readPromptMessage "/tmp/missing.txt" "ENOENT: no such file or directory")
                     Demo.fresh
            = reported (readPromptMessage path errorMessage) Demo.fresh).
Proof.
  split; [|split].
  - apply (proj1 (trailing_flag_is_ignored (json := Demo.json)
                    (Demo.piped ["--input-file"] "piped text") Demo.askNew Demo.fresh)).
    exists []. simpl. split; [reflexivity | tauto].
  - apply (proj1 (proj2 (trailing_flag_is_ignored (json := Demo.json)
                           (Demo.env ["--input-file"; "/tmp/new.json"; "--prompt-file"])
                           Demo.askNew Demo.fresh))).
    + exists ["--input-file"; "/tmp/new.json"]. simpl. split; [reflexivity|].
      intros [H|[H|[]]]; discriminate.
    + reflexivity.
  - apply (proj2 (proj2 (trailing_flag_is_ignored (json := Demo.json)
                           (Demo.env ["--prompt-file"; "/tmp/missing.txt"])
                           Demo.askNew Demo.fresh)) 1).
    reflexivity.
Defined.

(** C9 as stated fails in its second sentence: with the arguments
    [--input-file /tmp/fromfile.json --prompt-file], where the input has the
    prompt [inline] and the [promptFile] [/tmp/field.txt], the flag is last and
    carries no path, yet the prompt does not stay [inline]: line 130 takes it
    from the file of the field. *)
Lemma trailing_prompt_flag_prompt_replaced :
  flagTrailing "--prompt-file" ["--input-file"; "/tmp/fromfile.json"; "--prompt-file"]
  /\ Input.prompt Demo.askFromFile = Some "inline"
  /\ readInputData (json := Demo.json)
       (Demo.env ["--input-file"; "/tmp/fromfile.json"; "--prompt-file"]) Demo.fresh
     = Ret (Demo.stringifyInput Demo.askFromFile) Demo.fresh
  /\ JSON_parse_Input (JSON := Demo.json) (Demo.stringifyInput Demo.askFromFile)
     = Ok Demo.askFromFile
  /\ resolveRequest (json := Demo.json)
       (Demo.env ["--input-file"; "/tmp/fromfile.json"; "--prompt-file"]) Demo.fresh
     = Ret (Input.set_prompt "prompt of the field" Demo.askFromFile, "prompt of the field")
           Demo.fresh.
Proof.
  split; [|repeat split].
  exists ["--input-file"; "/tmp/fromfile.json"]. simpl. split; [reflexivity|].
  intros [H|[H|[]]]; discriminate.
Qed.

(** ** Validation mode (lines 164-175) *)

(** C7.  For an input that passes validation, an invocation with
    [--validate] ends with status 0 after printing the report [valid: true]
    with the action, the length of the prompt and the three presence flags;
    it invokes nothing on the service and leaves the state file as it was.
    Nothing is asked of [OPENAI_API_KEY]: the statement holds whether it is
    set or not. *)
Theorem validate_mode_is_dry {json : JSON} (env : Env) (p : Proc)
        (input : Input.t) (promptText : string) :
  resolveRequest env p = Ret (input, promptText) p ->
  includes "--validate" (argv env) = true ->
  main env p =
  Exit 0 {| stateFile := stateFile p;
            stdout := stdout p ++
                      [PReport (Report.mk true
                                          (Input.action input)
                                          (String.length promptText)
                                          (truthyO (Input.context input))
                                          (truthyO (Input.topic input))
                                          (truthyO (Input.workingDirectory input)))];
            calls := calls p |}.
Proof.
  intros Hreq Hflag.
  rewrite (main_serve env p input promptText Hreq), serve_run, Hflag.
  reflexivity.
Qed.

Lemma validate_mode_is_dry_witness :
  OPENAI_API_KEY (Demo.noKey ["--validate"; "--input-file"; "/tmp/review.json"]) = None
  /\ main (json := Demo.json)
       (Demo.noKey ["--validate"; "--input-file"; "/tmp/review.json"]) Demo.later
     = Exit 0 {| stateFile := stateFile Demo.later;
                 stdout := [PReport (Report.mk true (Some "new") 11 true false true)];
                 calls := [] |}.
Proof.
  split; [reflexivity|].
  apply (validate_mode_is_dry (json := Demo.json)
           (Demo.noKey ["--validate"; "--input-file"; "/tmp/review.json"]) Demo.later
           Demo.askReview "Review this").
  - reflexivity.
  - reflexivity.
Defined.

(** ** The text sent to the thread (lines 218-225) *)


Lemma fullPrompt_falsy (input : Input.t) (promptText : string) :
  truthyO (Input.context input) = false ->
  fullPrompt input promptText = promptText.
Proof.
  intros F. unfold fullPrompt. apply whenTruthy_None in F. now rewrite F.
Qed.

Lemma openCall_not_Run (input : Input.t) (state : State.t) (text : string) :
  openCall input state <> Run text.
Proof.
  unfold openCall. destruct (resumeTarget input state); discriminate.
Qed.

(** The operations [main] invokes for a validated request: none, the opening
    of the thread alone, or the opening and one run with [fullPrompt]. *)
Lemma main_calls {json : JSON} (env : Env) (p : Proc) (input : Input.t) (promptText : string) :
  resolveRequest env p = Ret (input, promptText) p ->
  exists sent,
    calls (final (main env p)) = calls p ++ sent
    /\ (forall text, In (Run text) sent -> text = fullPrompt input promptText)
    /\ (forall p', main env p = Ret tt p' ->
                   sent = [openCall input (readState (stateFile p));
                           Run (fullPrompt input promptText)]).
Proof.
  intros Hreq. rewrite (main_serve env p input promptText Hreq), serve_run.
  assert (none : forall text, In (Run text) [] -> text = fullPrompt input promptText)
    by (intros text []).
  assert (one : forall text,
             In (Run text) [openCall input (readState (stateFile p))] ->
             text = fullPrompt input promptText).
  { intros text [H|[]]. now apply openCall_not_Run in H. }
  assert (two : forall text,
             In (Run text) [openCall input (readState (stateFile p));
                            Run (fullPrompt input promptText)] ->
             text = fullPrompt input promptText).
  { intros text [H|[H|[]]]; [now apply openCall_not_Run in H | congruence]. }
  destruct (includes "--validate" (argv env)).
  { exists []. simpl. rewrite app_nil_r.
    split; [reflexivity | split; [exact none | discriminate]]. }
  destruct (whenTruthy (OPENAI_API_KEY env)) as [apiKey|].
  2:{ exists []. simpl. rewrite app_nil_r.
      split; [reflexivity | split; [exact none | discriminate]]. }
  destruct (newCodex env apiKey) as [codex|message].
  2:{ exists []. simpl. rewrite app_nil_r.
      split; [reflexivity | split; [exact none | discriminate]]. }
  destruct (loadedState (stateFile p)) as [|state].
  { exists []. simpl. rewrite app_nil_r.
    split; [reflexivity | split; [exact none | discriminate]]. }
  cbv zeta.
  destruct (openWith codex input _) as [thread|message].
  2:{ exists [openCall input (readState (stateFile p))]. simpl.
      split; [reflexivity | split; [exact one | discriminate]]. }
  destruct (run thread _) as [turn|message].
  - exists [openCall input (readState (stateFile p)); Run (fullPrompt input promptText)].
    simpl. split; [reflexivity | split; [exact two | reflexivity]].
  - exists [openCall input (readState (stateFile p)); Run (fullPrompt input promptText)].
    simpl. rewrite <- app_assoc.
    split; [reflexivity | split; [exact two | discriminate]].
Qed.



Example demo_review_sent :
  calls (final (main (json := Demo.json)
                     (Demo.env ["--input-file"; "/tmp/review.json"]) Demo.fresh))
  = [StartThread {| skipGitRepoCheck := true; opt_workingDirectory := Some "/repo" |};
     Run ("File a.ts" ++ nl ++ nl ++ "Review this")%string].
Proof. reflexivity. Qed.

(** ** The double that counts the messages (line 242) *)

Section Doubles.
Local Open Scope Z_scope.

(** An integer of magnitude below [2^53] is a double. *)
Lemma round64_small (z : Z) : Z.abs z < 2 ^ 53 -> round64 z 0 = Finite z 0.
Proof.
  intros H. unfold round64.
  destruct (Z.eqb_spec z 0) as [->|Hz]; [reflexivity|].
  assert (Hk : Z.log2 (Z.abs z) < 53).
  { apply Z.log2_lt_pow2; lia. }
  cbv zeta.
  destruct (Z.leb_spec (Z.max (Z.log2 (Z.abs z) + 0) (-1022) - 52) 0) as [_|Hc]; [|lia].
  destruct (Z.leb_spec 1024 (Z.log2 (Z.abs z) + 0)) as [Hc|_]; [lia|reflexivity].
Qed.

(** The same integer written with a negative exponent. *)
Lemma round64_scaled (z n : Z) :
  0 < n -> Z.abs z < 2 ^ 53 ->
  asInteger (round64 (z * 2 ^ n) (- n)) = Some z.
Proof.
  intros Hn H. unfold round64.
  assert (Hpow : 0 < 2 ^ n) by (apply Z.pow_pos_nonneg; lia).
  destruct (Z.eqb_spec (z * 2 ^ n) 0) as [E|Hz].
  { simpl. f_equal. nia. }
  assert (Hz0 : z <> 0) by (intros ->; lia).
  assert (Habs : Z.abs (z * 2 ^ n) = Z.abs z * 2 ^ n) by (rewrite Z.abs_mul; f_equal; lia).
  assert (Hlog : Z.log2 (Z.abs (z * 2 ^ n)) = Z.log2 (Z.abs z) + n).
  { rewrite Habs. rewrite <- Z.shiftl_mul_pow2 by lia. apply Z.log2_shiftl; lia. }
  assert (Hk : 0 <= Z.log2 (Z.abs z) < 53).
  { split; [apply Z.log2_nonneg | apply Z.log2_lt_pow2; lia]. }
  cbv zeta. rewrite Hlog.
  replace (Z.log2 (Z.abs z) + n + - n) with (Z.log2 (Z.abs z)) by lia.
  set (k := Z.log2 (Z.abs z)) in *.
  rewrite Z.max_l by lia.
  destruct (Z.leb_spec (k - 52) (- n)) as [Hexact|Hround].
  - destruct (Z.leb_spec 1024 k); [lia|].
    unfold asInteger. destruct (Z.leb_spec 0 (- n)); [lia|].
    rewrite Z.opp_involutive.
    rewrite Z.mod_mul by lia. simpl. f_equal. apply Z.div_mul. lia.
  - (* the last place is above 2^(-n): the low bits are zero *)
    set (s := k - 52 - - n) in *.
    assert (Hs : 0 < s <= n) by (unfold s; lia).
    assert (Hsplit : 2 ^ n = 2 ^ (n - s) * 2 ^ s).
    { rewrite <- Z.pow_add_r by lia. f_equal. lia. }
    assert (Hps : 0 < 2 ^ s) by (apply Z.pow_pos_nonneg; lia).
    assert (Hq : Z.abs z * 2 ^ n / 2 ^ s = Z.abs z * 2 ^ (n - s)).
    { rewrite Hsplit, Z.mul_assoc. apply Z.div_mul. lia. }
    assert (Hr : (Z.abs z * 2 ^ n) mod 2 ^ s = 0).
    { rewrite Hsplit, Z.mul_assoc. apply Z.mod_mul. lia. }
    rewrite Habs, Hq, Hr.
    assert (Hhalf : 0 < 2 ^ (s - 1)) by (apply Z.pow_pos_nonneg; lia).
    destruct (Z.ltb_spec (2 ^ (s - 1)) 0); [lia|].
    destruct (Z.eqb_spec 0 (2 ^ (s - 1))); [lia|]. simpl orb. cbv iota.
    assert (Hpns : 0 < 2 ^ (n - s)) by (apply Z.pow_pos_nonneg; lia).
    destruct (Z.eqb_spec (Z.abs z * 2 ^ (n - s)) 0); [nia|].
    assert (Hsgn : Z.sgn (z * 2 ^ n) = Z.sgn z).
    { rewrite Z.sgn_mul. replace (Z.sgn (2 ^ n)) with 1 by (symmetry; apply Z.sgn_pos; lia).
      apply Z.mul_1_r. }
    assert (Hsa : Z.sgn z * Z.abs z = z) by lia.
    rewrite Hsgn, Z.mul_assoc, Hsa.
    assert (Hlogq : Z.log2 (Z.abs z * 2 ^ (n - s)) = k + (n - s)).
    { rewrite <- Z.shiftl_mul_pow2 by lia. apply Z.log2_shiftl; lia. }
    rewrite Hlogq.
    destruct (Z.leb_spec 1024 (k + (n - s) + (k - 52))); [unfold s in *; lia|].
    unfold asInteger.
    destruct (Z.leb_spec 0 (k - 52)) as [Hge|Hlt].
    + (* k = 52 *)
      assert (k = 52) by lia.
      assert (n - s = 0) by (unfold s; lia).
      replace (k - 52) with 0 by lia. replace (n - s) with 0 by lia.
      simpl. f_equal. lia.
    + assert (Hexp : - (k - 52) = n - s) by (unfold s; lia).
      rewrite Hexp.
      rewrite Z.mod_mul by lia. simpl. f_equal. apply Z.div_mul. lia.
Qed.

Lemma plus1_integer (x : Number) (z : Z) :
  asInteger x = Some z -> Z.abs (z + 1) < 2 ^ 53 ->
  asInteger (plus1 x) = Some (z + 1).
Proof.
  destruct x as [m e|negative]; [|discriminate].
  unfold asInteger at 1. unfold plus1.
  destruct (Z.leb_spec 0 e) as [He|He].
  - intros H Hb. inversion H; subst. rewrite round64_small by exact Hb.
    unfold asInteger. change (0 <=? 0) with true. cbv iota.
    f_equal. change (2 ^ 0) with 1. lia.
  - destruct (Z.eqb_spec (m mod 2 ^ (- e)) 0) as [Hm|]; [|discriminate].
    intros H Hb. injection H as Hz.
    assert (Hpow : 0 < 2 ^ (- e)) by (apply Z.pow_pos_nonneg; lia).
    assert (Hmz : m = z * 2 ^ (- e)).
    { rewrite <- Hz. rewrite Z.mul_comm. apply Z.div_exact; lia. }
    replace (m + 2 ^ (- e)) with ((z + 1) * 2 ^ (- e)) by (rewrite Hmz; ring).
    replace e with (- (- e)) at 2 by lia.
    apply round64_scaled; lia.
Qed.

Lemma asInteger_zero (e : Z) : asInteger (Finite 0 e) = Some 0.
Proof.
  unfold asInteger. destruct (Z.leb_spec 0 e); [reflexivity|].
  rewrite Z.mod_0_l, Z.div_0_l; [reflexivity | |];
    apply Z.pow_nonzero; lia.
Qed.

(** [count || 0] is the count, when the count is an integer. *)
Lemma jsOrNum_integer (x : Number) (z : Z) :
  asInteger x = Some z -> asInteger (jsOrNum (Some x) (Finite 0 0)) = Some z.
Proof.
  destruct x as [m e|negative]; [|discriminate].
  unfold jsOrNum. destruct (Z.eqb_spec m 0) as [->|_]; [|trivial].
  rewrite asInteger_zero. intros H. inversion H. reflexivity.
Qed.

Lemma plus1_zero : plus1 (Finite 0 0) = Finite 1 0.
Proof. reflexivity. Qed.

End Doubles.

(** The addition agrees with the doubles of the kernel on zero, small and
    large integers, fractions, the largest double and the infinities. *)
Example plus1_is_double_addition :
  forallb (fun x => PrimFloat.eqb (toFloat (plus1 x)) (PrimFloat.add (toFloat x) 1%float))
          [Finite 0 0; Finite 1 0; Finite 3 0; Finite (-1) 0; Finite (-2) 0;
           Finite 3 (-1); Finite (-3) (-1); Finite 1 (-52); Finite 1 (-53); Finite 3 (-54);
           Finite 1 (-60); Finite 1 (-1074); Finite (-1) (-53); Finite (-1) (-54);
           Finite 9007199254740991 0; Finite 9007199254740992 0;
           Finite 4503599627370497 1; Finite 4503599627370497 2;
           Finite 9007199254740991 1; Finite (-9007199254740992) 0;
           Finite (-4503599627370497) 1; Finite (-4503599627370496) 2;
           Finite 9007199254740991 (-53); Finite 9007199254740991 (-1);
           Finite 9007199254740991 971; Finite (-9007199254740991) 971;
           Infinite true; Infinite false]
  = true.
Proof. vm_compute. reflexivity. Qed.

(** ** The thread and the message count (lines 210-216 and 238-245) *)

Lemma resumeTarget_new (input : Input.t) (state : State.t) :
  Input.action input = Some "new" -> resumeTarget input state = None.
Proof.
  intros H. unfold resumeTarget. now rewrite H.
Qed.

Lemma resumeTarget_continue (input : Input.t) (state : State.t) :
  Input.action input = Some "continue" ->
  resumeTarget input state = whenTruthy (State.threadId state).
Proof.
  intros H. unfold resumeTarget. now rewrite H.
Qed.

(** A run of [main] that completes, for a validated request. *)
Lemma main_Ret {json : JSON} (env : Env) (p p' : Proc) (input : Input.t) (promptText : string) :
  resolveRequest env p = Ret (input, promptText) p ->
  main env p = Ret tt p' ->
  exists turn, p' = completed env input promptText turn p.
Proof.
  intros Hreq Hmain. rewrite (main_serve env p input promptText Hreq) in Hmain.
  apply serve_Ret in Hmain.
  destruct Hmain as (_ & apiKey & codex & thread & turn & _ & _ & _ & _ & ->).
  now exists turn.
Qed.

(** The same, with the calls of the SDK that returned. *)
Lemma main_Ret_calls {json : JSON} (env : Env) (p p' : Proc)
      (input : Input.t) (promptText : string) :
  resolveRequest env p = Ret (input, promptText) p ->
  main env p = Ret tt p' ->
  exists apiKey codex thread turn,
    whenTruthy (OPENAI_API_KEY env) = Some apiKey
    /\ newCodex env apiKey = Ok codex
    /\ openWith codex input (readState (stateFile p)) = Ok thread
    /\ run thread (fullPrompt input promptText) = Ok turn
    /\ p' = completed env input promptText turn p.
Proof.
  intros Hreq Hmain. rewrite (main_serve env p input promptText Hreq) in Hmain.
  apply serve_Ret in Hmain. exact (proj2 Hmain).
Qed.

(** C1, as amended.  After a run that completes for a validated request, the
    state file holds the text of a record whose [threadId] is the one the
    thread had after its run, and such that: if the action is [new], the SDK
    was asked to start a thread and the record's [messageCount] is 1,
    whatever the state file held before; if the action is [continue] and the
    record loaded from the state file has a (non-empty) [threadId], the SDK
    was asked to resume that one, and the record's [messageCount] is the sum
    of the loaded count (0 when absent) and 1 as a double: the loaded count
    plus 1 whenever the loaded count is an integer [n] with [|n + 1| < 2^53];
    and whenever the run started a thread, the count is 1. *)
Theorem message_count_after_success {json : JSON} (env : Env) (p p' : Proc)
        (input : Input.t) (promptText : string) :
  resolveRequest env p = Ret (input, promptText) p ->
  main env p = Ret tt p' ->
  exists saved options apiKey codex thread turn,
    stateFile p' = Some (JSON_stringify_State saved)
    /\ whenTruthy (OPENAI_API_KEY env) = Some apiKey
    /\ newCodex env apiKey = Ok codex
    /\ run thread (fullPrompt input promptText) = Ok turn
    /\ State.threadId saved = id turn
    /\ (Input.action input = Some "new" ->
        startThread codex options = Ok thread
        /\ calls p' = calls p ++ [StartThread options; Run (fullPrompt input promptText)]
        /\ State.messageCount saved = Some (Finite 1 0))
    /\ (forall threadId,
           Input.action input = Some "continue" ->
           State.threadId (readState (stateFile p)) = Some threadId ->
           threadId <> "" ->
           resumeThread codex threadId options = Ok thread
           /\ calls p' = calls p ++ [ResumeThread threadId options;
                                  Run (fullPrompt input promptText)]
           /\ State.messageCount saved
              = Some (plus1 (jsOrNum (State.messageCount (readState (stateFile p)))
                                     (Finite 0 0)))
           /\ (forall count n,
                  State.messageCount (readState (stateFile p)) = Some count ->
                  asInteger count = Some n ->
                  (Z.abs (n + 1) < 2 ^ 53)%Z ->
                  exists next,
                    State.messageCount saved = Some next
                    /\ asInteger next = Some (n + 1)%Z)
           /\ (State.messageCount (readState (stateFile p)) = None ->
               State.messageCount saved = Some (Finite 1 0)))
    /\ (forall started,
           calls p' = calls p ++ [StartThread started; Run (fullPrompt input promptText)] ->
           startThread codex started = Ok thread
           /\ State.messageCount saved = Some (Finite 1 0)).
Proof.
  intros Hreq Hmain.
  destruct (main_Ret_calls env p p' input promptText Hreq Hmain)
    as (apiKey & codex & thread & turn & Hkey & Hcodex & Hopen & Hrun & ->).
  set (state := readState (stateFile p)) in *.
  exists (newState env input state (isNewThread input state) (id turn)),
         (threadOptions input state), apiKey, codex, thread, turn.
  split; [reflexivity|]. split; [exact Hkey|]. split; [exact Hcodex|].
  split; [exact Hrun|]. split; [reflexivity|].
  split; [|split].
  3:{ intros started. unfold completed. fold state. simpl calls.
      intros Hcalls. apply app_inv_head in Hcalls.
      unfold openCall in Hcalls. unfold openWith in Hopen. unfold isNewThread.
      destruct (resumeTarget input state); [discriminate|].
      inversion Hcalls; subst started. split; [exact Hopen | reflexivity]. }
  - intros Hnew. unfold completed. fold state. simpl calls.
    unfold openCall, isNewThread. unfold openWith in Hopen.
    rewrite (resumeTarget_new input state Hnew) in *.
    split; [exact Hopen | split; reflexivity].
  - intros threadId Hcont Hid Hne. unfold completed. fold state. simpl calls.
    unfold openCall, isNewThread. unfold openWith in Hopen.
    rewrite (resumeTarget_continue input state Hcont), Hid in *.
    assert (W : whenTruthy (Some threadId) = Some threadId)
      by (apply whenTruthy_Some; auto).
    rewrite W in *. split; [exact Hopen|].
    split; [reflexivity|]. split; [reflexivity|]. split.
    + intros count n Hcount Hn Hbound.
      exists (plus1 (jsOrNum (Some count) (Finite 0 0))).
      split; [simpl; now rewrite Hcount|].
      apply plus1_integer; [now apply jsOrNum_integer | exact Hbound].
    + intros Hn. simpl. rewrite Hn. reflexivity.
Qed.

Lemma message_count_after_success_witness :
  (exists saved options,
      stateFile (final (main (json := Demo.json)
                             (Demo.env ["--input-file"; "/tmp/continue.json"]) Demo.later))
      = Some (Demo.stringifyState saved)
      /\ resumeThread Demo.codex "t-7" options = Ok (Demo.thread "t-7")
      /\ calls (final (main (json := Demo.json)
                            (Demo.env ["--input-file"; "/tmp/continue.json"]) Demo.later))
         = [ResumeThread "t-7" options; Run "And now?"]
      /\ exists next,
          State.messageCount saved = Some next /\ asInteger next = Some 4%Z)
  /\
  (exists saved options,
      stateFile (final (main (json := Demo.json)
                             (Demo.env ["--input-file"; "/tmp/new.json"]) Demo.later))
      = Some (Demo.stringifyState saved)
      /\ startThread Demo.codex options = Ok (Demo.thread "t-8")
      /\ calls (final (main (json := Demo.json)
                            (Demo.env ["--input-file"; "/tmp/new.json"]) Demo.later))
         = [StartThread options; Run "What is 2+2?"]
      /\ State.messageCount saved = Some (Finite 1 0)).
Proof.
  split.
  - destruct (message_count_after_success (json := Demo.json)
                (Demo.env ["--input-file"; "/tmp/continue.json"]) Demo.later
                (final (main (json := Demo.json)
                             (Demo.env ["--input-file"; "/tmp/continue.json"]) Demo.later))
                Demo.askContinue "And now?" eq_refl eq_refl)
      as (saved & options & apiKey & codex & thread & turn
          & Hfile & _ & Hcodex & _ & _ & _ & Hcontinue & _).
    assert (Hid : "t-7" <> "") by discriminate.
    destruct (Hcontinue "t-7" eq_refl eq_refl Hid) as (Hresume & Hcalls & _ & Hcount & _).
    assert (Ecodex : Ok codex = Ok Demo.codex) by (rewrite <- Hcodex; reflexivity).
    inversion Ecodex; subst codex.
    assert (Ethread : Ok thread = Ok (Demo.thread "t-7")) by (rewrite <- Hresume; reflexivity).
    inversion Ethread; subst thread.
    exists saved, options.
    split; [exact Hfile | split; [exact Hresume | split; [exact Hcalls|]]].
    apply (Hcount (Finite 3 0) 3%Z); [reflexivity | reflexivity | reflexivity].
  - destruct (message_count_after_success (json := Demo.json)
                (Demo.env ["--input-file"; "/tmp/new.json"]) Demo.later
                (final (main (json := Demo.json)
                             (Demo.env ["--input-file"; "/tmp/new.json"]) Demo.later))
                Demo.askNew "What is 2+2?" eq_refl eq_refl)
      as (saved & options & apiKey & codex & thread & turn
          & Hfile & _ & Hcodex & _ & _ & Hnew & _).
    destruct (Hnew eq_refl) as (Hstart & Hcalls & Hcount).
    assert (Ecodex : Ok codex = Ok Demo.codex) by (rewrite <- Hcodex; reflexivity).
    inversion Ecodex; subst codex.
    assert (Ethread : Ok thread = Ok (Demo.thread "t-8")) by (rewrite <- Hstart; reflexivity).
    inversion Ethread; subst thread.
    exists saved, options.
    split; [exact Hfile | split; [exact Hstart | split; [exact Hcalls | exact Hcount]]].
Defined.

(** C1 as stated fails: the count is a double.  With a state file whose
    record has the thread [t-7] and the count [2^53], a [continue] request
    completes, resumes [t-7], and saves the count [2^53] again (the double
    nearest to [2^53 + 1]), not the loaded count plus 1. *)
Lemma count_stays_at_two_to_53 :
  State.threadId (readState (json := Turns.json) (stateFile Turns.afterManyTurns))
  = Some "t-7"
  /\ State.messageCount (readState (json := Turns.json) (stateFile Turns.afterManyTurns))
     = Some (Finite 9007199254740992 0)
  /\ resolveRequest (json := Turns.json)
       (Demo.env ["--input-file"; "/tmp/continue.json"]) Turns.afterManyTurns
     = Ret (Demo.askContinue, "And now?") Turns.afterManyTurns
  /\ main (json := Turns.json)
       (Demo.env ["--input-file"; "/tmp/continue.json"]) Turns.afterManyTurns
     = Ret tt
         {| stateFile :=
              Some (Demo.stringifyState
                      (State.mk (Some "t-7") (Some "sort review")
                                (Some "2026-01-02T00:00:00.000Z")
                                (Some (Finite 4503599627370496 1)) (Some "/work")));
            stdout := [POutput (Output.mk true (Some "t-7") (Some "4") None true)];
            calls := [ResumeThread "t-7" {| skipGitRepoCheck := true;
                                            opt_workingDirectory := Some "/work" |};
                      Run "And now?"] |}
  /\ asInteger (Finite 4503599627370496 1) = Some 9007199254740992%Z
  /\ asInteger (Finite 9007199254740992 0) = Some 9007199254740992%Z
  /\ PrimFloat.eqb (PrimFloat.add 9007199254740992%float 1%float) 9007199254740992%float
     = true.
Proof.
  repeat split; vm_compute; reflexivity.
Qed.

(** ** Inputs [serve] cannot tell apart *)

Lemma jsOr_whenTruthy (a b : option string) :
  jsOr a b = match whenTruthy a with Some s => Some s | None => b end.
Proof.
  unfold jsOr. destruct a as [[|c s]|]; reflexivity.
Qed.

Lemma truthyO_whenTruthy (a : option string) :
  truthyO a = match whenTruthy a with Some _ => true | None => false end.
Proof.
  destruct a as [[|c s]|]; reflexivity.
Qed.

(** [serve] looks at the action only through the report and the test of
    line 211, and at the optional fields only through their truthy values. *)
Lemma serve_same {json : JSON} (env : Env) (input input' : Input.t)
      (promptText : string) (p : Proc) :
  (includes "--validate" (argv env) = true -> Input.action input = Input.action input') ->
  resumeTarget input (readState (stateFile p))
  = resumeTarget input' (readState (stateFile p)) ->
  whenTruthy (Input.context input) = whenTruthy (Input.context input') ->
  whenTruthy (Input.topic input) = whenTruthy (Input.topic input') ->
  whenTruthy (Input.workingDirectory input) = whenTruthy (Input.workingDirectory input') ->
  serve env input promptText p = serve env input' promptText p.
Proof.
  intros Haction Htarget Hcontext Htopic Hdir.
  set (state := readState (stateFile p)) in *.
  assert (Eprompt : fullPrompt input promptText = fullPrompt input' promptText).
  { unfold fullPrompt. now rewrite Hcontext. }
  assert (Edir : effectiveWorkingDir input state = effectiveWorkingDir input' state).
  { unfold effectiveWorkingDir. rewrite !jsOr_whenTruthy. now rewrite Hdir. }
  assert (Eoptions : threadOptions input state = threadOptions input' state).
  { unfold threadOptions. now rewrite Edir. }
  assert (Ecall : openCall input state = openCall input' state).
  { unfold openCall. now rewrite Htarget, Eoptions. }
  assert (Enew : isNewThread input state = isNewThread input' state).
  { unfold isNewThread. now rewrite Htarget. }
  assert (Eopen : forall codex, openWith codex input state = openWith codex input' state).
  { intros codex. unfold openWith. now rewrite Htarget, Eoptions. }
  assert (Estate : forall isNew threadId,
             newState env input state isNew threadId
             = newState env input' state isNew threadId).
  { intros isNew threadId. unfold newState.
    rewrite Edir. rewrite !(jsOr_whenTruthy (Input.topic input)).
    rewrite !(jsOr_whenTruthy (Input.topic input')). now rewrite Htopic. }
  assert (Edone : forall turn,
             completed env input promptText turn p
             = completed env input' promptText turn p).
  { intros turn. unfold completed. fold state.
    now rewrite Estate, Enew, Ecall, Eprompt. }
  rewrite !serve_run. fold state.
  destruct (includes "--validate" (argv env)).
  { unfold validated, report. rewrite (Haction eq_refl).
    rewrite !truthyO_whenTruthy. now rewrite Hcontext, Htopic, Hdir. }
  destruct (whenTruthy (OPENAI_API_KEY env)) as [apiKey|]; [|reflexivity].
  destruct (newCodex env apiKey) as [codex|message]; [|reflexivity].
  destruct (loadedState (stateFile p)) as [|loaded]; [reflexivity|].
  cbv zeta. rewrite Eopen, Ecall, Eprompt.
  destruct (openWith codex input' state) as [thread|message]; [|reflexivity].
  destruct (run thread _) as [turn|message]; [|reflexivity].
  now rewrite Edone.
Qed.




(** What validation mode prints, by [serve_run]. *)
Lemma main_validate {json : JSON} (env : Env) (p : Proc) (input : Input.t) (promptText : string) :
  resolveRequest env p = Ret (input, promptText) p ->
  includes "--validate" (argv env) = true ->
  main env p = Exit 0 (validated input promptText p).
Proof.
  intros Hreq Hmode.
  now rewrite (main_serve env p input promptText Hreq), serve_run, Hmode.
Qed.

(** C10.  For a validated request, a [context] that is the empty string is
    treated as an absent one: [main] does exactly what it does for the same
    request without [context], every text run on the thread is the prompt
    itself, and the report of validation mode has [hasContext] false.  The
    same holds for an empty [topic] and an empty [workingDirectory] and their
    flags. *)
Theorem empty_string_is_absent {json : JSON} (env : Env) (p : Proc)
        (input : Input.t) (promptText : string) :
  resolveRequest env p = Ret (input, promptText) p ->
  (Input.context input = Some "" ->
   main env p = serve env (Input.set_context None input) promptText p
   /\ (exists sent,
          calls (final (main env p)) = calls p ++ sent
          /\ forall text, In (Run text) sent -> text = promptText)
   /\ (includes "--validate" (argv env) = true ->
       exists r,
         main env p = Exit 0 {| stateFile := stateFile p;
                                stdout := stdout p ++ [PReport r];
                                calls := calls p |}
         /\ Report.hasContext r = false))
  /\ (Input.topic input = Some "" ->
      main env p = serve env (Input.set_topic None input) promptText p
      /\ (includes "--validate" (argv env) = true ->
          exists r,
            main env p = Exit 0 {| stateFile := stateFile p;
                                   stdout := stdout p ++ [PReport r];
                                   calls := calls p |}
            /\ Report.hasTopic r = false))
  /\ (Input.workingDirectory input = Some "" ->
      main env p = serve env (Input.set_workingDirectory None input) promptText p
      /\ (includes "--validate" (argv env) = true ->
          exists r,
            main env p = Exit 0 {| stateFile := stateFile p;
                                   stdout := stdout p ++ [PReport r];
                                   calls := calls p |}
            /\ Report.hasWorkingDirectory r = false)).
Proof.
  intros Hreq. split; [|split].
  - intros Hempty. split; [|split].
    + rewrite (main_serve env p input promptText Hreq).
      apply serve_same; try reflexivity. simpl. now rewrite Hempty.
    + destruct (main_calls env p input promptText Hreq) as (sent & Hcalls & Hrun & _).
      exists sent. split; [exact Hcalls|].
      intros text Hin. rewrite (Hrun text Hin).
      apply fullPrompt_falsy. now rewrite Hempty.
    + intros Hmode. exists (report input promptText).
      split; [exact (main_validate env p input promptText Hreq Hmode)|].
      simpl. now rewrite Hempty.
  - intros Hempty. split.
    + rewrite (main_serve env p input promptText Hreq).
      apply serve_same; try reflexivity. simpl. now rewrite Hempty.
    + intros Hmode. exists (report input promptText).
      split; [exact (main_validate env p input promptText Hreq Hmode)|].
      simpl. now rewrite Hempty.
  - intros Hempty. split.
    + rewrite (main_serve env p input promptText Hreq).
      apply serve_same; try reflexivity. simpl. now rewrite Hempty.
    + intros Hmode. exists (report input promptText).
      split; [exact (main_validate env p input promptText Hreq Hmode)|].
      simpl. now rewrite Hempty.
Qed.

Lemma empty_string_is_absent_witness :
  (main (json := Demo.json) (Demo.env ["--input-file"; "/tmp/empty.json"]) Demo.later
   = serve (json := Demo.json) (Demo.env ["--input-file"; "/tmp/empty.json"])
           (Input.set_context None Demo.askEmptyContext) "Review this" Demo.later
   /\ exists sent,
       calls (final (main (json := Demo.json)
                          (Demo.env ["--input-file"; "/tmp/empty.json"]) Demo.later))
       = calls Demo.later ++ sent
       /\ forall text, In (Run text) sent -> text = "Review this")
  /\ (exists r,
         main (json := Demo.json)
              (Demo.env ["--validate"; "--input-file"; "/tmp/empty.json"]) Demo.later
         = Exit 0 {| stateFile := stateFile Demo.later;
                     stdout := stdout Demo.later ++ [PReport r];
                     calls := calls Demo.later |}
         /\ Report.hasTopic r = false)
  /\ (exists r,
         main (json := Demo.json)
              (Demo.env ["--validate"; "--input-file"; "/tmp/empty.json"]) Demo.later
         = Exit 0 {| stateFile := stateFile Demo.later;
                     stdout := stdout Demo.later ++ [PReport r];
                     calls := calls Demo.later |}
         /\ Report.hasWorkingDirectory r = false).
Proof.
  split; [|split].
  - destruct (proj1 (empty_string_is_absent (json := Demo.json)
                       (Demo.env ["--input-file"; "/tmp/empty.json"]) Demo.later
                       Demo.askEmptyContext "Review this" eq_refl) eq_refl)
      as (Hsame & Hsent & _).
    split; [exact Hsame | exact Hsent].
  - apply (proj1 (proj2 (empty_string_is_absent (json := Demo.json)
                           (Demo.env ["--validate"; "--input-file"; "/tmp/empty.json"])
                           Demo.later Demo.askEmptyContext "Review this" eq_refl)) eq_refl).
    reflexivity.
  - apply (proj2 (proj2 (empty_string_is_absent (json := Demo.json)
                           (Demo.env ["--validate"; "--input-file"; "/tmp/empty.json"])
                           Demo.later Demo.askEmptyContext "Review this" eq_refl)) eq_refl).
    reflexivity.
Defined.

(** ** The working directory (lines 204-208 and 243) *)



(** ** When the state file is written (lines 50-52, 192-261) *)

(** [main] changes the state file only when it completes. *)
Lemma main_keeps {json : JSON} (env : Env) (p : Proc) :
  match main env p with
  | Ret _ _ => True
  | Exit _ p' => stateFile p' = stateFile p
  | Throw _ p' => stateFile p' = stateFile p
  end.
Proof.
  unfold main, bind.
  pose proof (quiet_resolveRequest env p) as Q.
  destruct (resolveRequest env p) as [[input promptText] p1|code p1|message p1].
  - subst p1. apply serve_keeps.
  - destruct Q as (_ & error & ->). reflexivity.
  - now subst p1.
Qed.

(** C2.  The state file is written only after a successful exchange.  When
    [main] fails (it leaves with a status other than 0, or an exception
    escapes it), whatever the failure, the state file is what it was before
    the invocation; and when [main] completes, the request was valid, the
    credential was set, the thread was opened and its run returned, and what
    was written is the record built from that turn. *)
Theorem state_file_written_only_on_success {json : JSON} (env : Env) (p : Proc) :
  (failed (main env p) -> stateFile (final (main env p)) = stateFile p)
  /\ (forall p',
         main env p = Ret tt p' ->
         exists input promptText apiKey codex thread turn,
           resolveRequest env p = Ret (input, promptText) p
           /\ whenTruthy (OPENAI_API_KEY env) = Some apiKey
           /\ newCodex env apiKey = Ok codex
           /\ openWith codex input (readState (stateFile p)) = Ok thread
           /\ run thread (fullPrompt input promptText) = Ok turn
           /\ stateFile p'
              = Some (JSON_stringify_State
                        (newState env input (readState (stateFile p))
                                  (isNewThread input (readState (stateFile p)))
                                  (id turn)))).
Proof.
  split.
  - intros Hfailed. pose proof (main_keeps env p) as K.
    destruct (main env p) as [u p'|code p'|message p']; simpl in *;
      [contradiction | exact K | exact K].
  - intros p' Hmain. unfold main, bind in Hmain.
    destruct (resolveRequest env p) as [[input promptText] p1|code p1|message p1] eqn:Hreq;
      try discriminate.
    pose proof (resolveRequest_Ret env p p1 (input, promptText) Hreq) as ->.
    simpl in Hmain. apply serve_Ret in Hmain.
    destruct Hmain as (_ & apiKey & codex & thread & turn & Hkey & Hcodex & Hopen & Hrun & ->).
    exists input, promptText, apiKey, codex, thread, turn.
    repeat (split; [assumption || reflexivity|]). reflexivity.
Qed.

(** The failures of the error taxonomy, one invocation each: no input, an
    input file that cannot be read, a text that does not parse, a missing
    prompt, a missing credential, a service that is down. *)
Lemma state_file_written_only_on_success_witness :
  stateFile (final (main (json := Demo.json) (Demo.env []) Demo.later))
  = stateFile Demo.later
  /\ stateFile (final (main (json := Demo.json)
                            (Demo.env ["--input-file"; "/tmp/missing.json"]) Demo.later))
     = stateFile Demo.later
  /\ stateFile (final (main (json := Demo.json) (Demo.piped [] "{action:") Demo.later))
     = stateFile Demo.later
  /\ stateFile (final (main (json := Demo.json)
                            (Demo.env ["--input-file"; "/tmp/nothing.json"]) Demo.later))
     = stateFile Demo.later
  /\ stateFile (final (main (json := Demo.json)
                            (Demo.noKey ["--input-file"; "/tmp/continue.json"]) Demo.later))
     = stateFile Demo.later
  /\ stateFile (final (main (json := Demo.json)
                            (Demo.outage ["--input-file"; "/tmp/continue.json"]) Demo.later))
     = stateFile Demo.later.
Proof.
  refine (conj _ (conj _ (conj _ (conj _ (conj _ _))))).
  - apply (proj1 (state_file_written_only_on_success (json := Demo.json)
                    (Demo.env []) Demo.later)).
    simpl. discriminate.
  - apply (proj1 (state_file_written_only_on_success (json := Demo.json)
                    (Demo.env ["--input-file"; "/tmp/missing.json"]) Demo.later)).
    simpl. discriminate.
  - apply (proj1 (state_file_written_only_on_success (json := Demo.json)
                    (Demo.piped [] "{action:") Demo.later)).
    simpl. discriminate.
  - apply (proj1 (state_file_written_only_on_success (json := Demo.json)
                    (Demo.env ["--input-file"; "/tmp/nothing.json"]) Demo.later)).
    simpl. discriminate.
  - apply (proj1 (state_file_written_only_on_success (json := Demo.json)
                    (Demo.noKey ["--input-file"; "/tmp/continue.json"]) Demo.later)).
    simpl. discriminate.
  - apply (proj1 (state_file_written_only_on_success (json := Demo.json)
                    (Demo.outage ["--input-file"; "/tmp/continue.json"]) Demo.later)).
    simpl. discriminate.
Defined.

(** The six failures above end as the taxonomy says. *)
Example demo_failures :
  main (json := Demo.json) (Demo.env []) Demo.later
  = Exit 1 (reported noInputMessage Demo.later)
  /\ main (json := Demo.json) (Demo.env ["--input-file"; "/tmp/missing.json"]) Demo.later
     = Exit 1 (reported (readInputMessage "/tmp/missing.json"
                                          "ENOENT: no such file or directory") Demo.later)
  /\ main (json := Demo.json) (Demo.piped [] "{action:") Demo.later
     = Exit 1 (reported (invalidJsonMessage (json := Demo.json) "Unexpected token" "{action:")
                        Demo.later)
  /\ main (json := Demo.json) (Demo.env ["--input-file"; "/tmp/nothing.json"]) Demo.later
     = Exit 1 (reported missingPromptMessage Demo.later)
  /\ main (json := Demo.json) (Demo.noKey ["--input-file"; "/tmp/continue.json"]) Demo.later
     = Exit 1 (reported noApiKeyMessage Demo.later)
  /\ main (json := Demo.json) (Demo.outage ["--input-file"; "/tmp/continue.json"]) Demo.later
     = Exit 1 (reported "Codex error: 503"
                        (called (Run "And now?")
                                (called (ResumeThread "t-7"
                                           {| skipGitRepoCheck := true;
                                              opt_workingDirectory := Some "/work" |})
                                        Demo.later))).
Proof. repeat split. Qed.

(** ** The state file that is absent or does not parse (lines 39-48) *)




(** ** Validation (lines 145-162) *)

(** X2.  Once the input is parsed and the prompt file applied, the action
    is checked before the prompt: an action other than the strings [new] and
    [continue] ends the invocation with status 1 and the message that quotes
    it, whatever the prompt is; the message quotes a string as it is, writes
    [null] for a null action and [undefined] for an absent one.  With a valid
    action, an absent or empty prompt ends the invocation with the
    missing-prompt message; and any other input is the validated request,
    with its prompt.  Neither the flag of validation mode nor the credential
    changes this. *)
Theorem validation_order {json : JSON} (env : Env) (p : Proc)
        (inputData : string) (parsed : ParsedInput) (input : Input.t) :
  readInputData env p = Ret inputData p ->
  JSON_parse_Input inputData = Ok parsed ->
  readPromptFile env parsed p = Ret input p ->
  (Input.action input <> Str "new" -> Input.action input <> Str "continue" ->
   main env p =
   Exit 1 (reported ("Invalid action " ++ dq
                       ++ match Input.action input with
                          | Str action => action
                          | Null => "null"
                          | Undefined => "undefined"
                          end
                       ++ dq ++ ". Must be " ++ dq ++ "new" ++ dq ++ " or "
                       ++ dq ++ "continue" ++ dq ++ ".")%string p))
  /\ (Input.action input = Str "new" \/ Input.action input = Str "continue" ->
      (truthyO (Input.prompt input) = false ->
       main env p = Exit 1 (reported missingPromptMessage p))
      /\ (forall promptText,
             Input.prompt input = Some promptText -> promptText <> "" ->
             resolveRequest env p = Ret (input, promptText) p)).
Proof.
  intros Hread Hparse Hfile.
  assert (Hresolve : resolveRequest env p =
                     bind (validate input) (fun promptText => ret (input, promptText)) p).
  { unfold resolveRequest. unfold bind at 1. rewrite Hread.
    unfold bind at 1. unfold parseInput. rewrite Hparse.
    change (ret parsed p) with (Ret parsed p).
    unfold bind at 1. now rewrite Hfile. }
  split.
  - intros Hnew Hcont.
    assert (A : isString (Input.action input) "new"
                || isString (Input.action input) "continue" = false).
    { apply orb_false_iff. unfold isString.
      destruct (Input.action input) as [| |a]; [split; reflexivity ..|].
      split; apply String.eqb_neq; congruence. }
    unfold main. unfold bind at 1. rewrite Hresolve.
    unfold bind at 1. unfold validate. rewrite A. reflexivity.
  - intros Hvalid.
    assert (A : isString (Input.action input) "new"
                || isString (Input.action input) "continue" = true).
    { destruct Hvalid as [-> | ->]; reflexivity. }
    split.
    + intros Hprompt. apply whenTruthy_None in Hprompt.
      unfold main. unfold bind at 1. rewrite Hresolve.
      unfold bind at 1. unfold validate. rewrite A, Hprompt. reflexivity.
    + intros promptText Hprompt Hne.
      assert (W : whenTruthy (Input.prompt input) = Some promptText)
        by (apply whenTruthy_Some; auto).
      rewrite Hresolve. unfold bind at 1. unfold validate. rewrite A, W. reflexivity.
Qed.

Lemma validation_order_witness :
  main (json := Demo.json)
       (Demo.noKey ["--validate"; "--input-file"; "/tmp/nothing.json"]) Demo.fresh
  = Exit 1 (reported missingPromptMessage Demo.fresh)
  /\ resolveRequest (json := Demo.json)
       (Demo.noKey ["--input-file"; "/tmp/nothing.json"; "--prompt-file"; "/tmp/flag.txt"])
       Demo.fresh
     = Ret (Input.set_prompt "prompt of the flag" Demo.askNothing, "prompt of the flag")
           Demo.fresh
  /\ main (json := Turns.json)
          (Demo.piped ["--validate"] (Demo.stringifyInput Turns.askNullAction)) Demo.later
     = Exit 1 (reported ("Invalid action " ++ dq ++ "null" ++ dq ++ ". Must be "
                           ++ dq ++ "new" ++ dq ++ " or " ++ dq ++ "continue" ++ dq
                           ++ ".")%string Demo.later).
Proof.
  split; [|split].
  - apply (proj2 (validation_order (json := Demo.json)
                    (Demo.noKey ["--validate"; "--input-file"; "/tmp/nothing.json"])
                    Demo.fresh (Demo.stringifyInput Demo.askNothing)
                    Demo.askNothing Demo.askNothing eq_refl eq_refl eq_refl)).
    + left. reflexivity.
    + reflexivity.
  - apply (proj2 (validation_order (json := Demo.json)
                    (Demo.noKey ["--input-file"; "/tmp/nothing.json";
                                 "--prompt-file"; "/tmp/flag.txt"])
                    Demo.fresh (Demo.stringifyInput Demo.askNothing)
                    Demo.askNothing
                    (Input.set_prompt "prompt of the flag" Demo.askNothing)
                    eq_refl eq_refl eq_refl)).
    + left. reflexivity.
    + reflexivity.
    + discriminate.
  - apply (proj1 (validation_order (json := Turns.json)
                    (Demo.piped ["--validate"] (Demo.stringifyInput Turns.askNullAction))
                    Demo.later (Demo.stringifyInput Turns.askNullAction)
                    Turns.askNullAction Turns.askNullAction eq_refl eq_refl eq_refl)).
    + discriminate.
    + discriminate.
Defined.

(** ** Input that is not JSON (lines 100-112) *)

Lemma slice0_length (n : nat) (s : string) :
  String.length (slice0 n s) = Nat.min n (String.length s).
Proof.
  unfold slice0. revert s.
  induction n as [|n IH]; intros [|c s]; simpl; try reflexivity.
  now rewrite IH.
Qed.

Lemma slice0_start (n : nat) (s : string) :
  exists rest, s = (slice0 n s ++ rest)%string.
Proof.
  unfold slice0. revert s.
  induction n as [|n IH]; intros [|c s]; simpl.
  - now exists EmptyString.
  - now exists (String c s).
  - now exists EmptyString.
  - destruct (IH s) as (rest & Hrest). exists rest. now rewrite <- Hrest.
Qed.

(** X3.  When the text located as input does not parse, the invocation ends
    with status 1 and one error that carries the message of the parser and a
    preview; the preview is the serialization of the first 200 characters of
    the text (all of it when it is shorter), never more. *)
Theorem invalid_json_preview {json : JSON} (env : Env) (p : Proc)
        (inputData errorMessage : string) :
  readInputData env p = Ret inputData p ->
  JSON_parse_Input inputData = Raise errorMessage ->
  exists preview rest,
    main env p =
    Exit 1 (reported ("Invalid JSON input: " ++ errorMessage ++ ". Preview: "
                        ++ JSON_stringify_string preview)%string p)
    /\ inputData = (preview ++ rest)%string
    /\ String.length preview = Nat.min 200 (String.length inputData).
Proof.
  intros Hread Hparse.
  destruct (slice0_start 200 inputData) as (rest & Hrest).
  exists (slice0 200 inputData), rest.
  split; [|split; [exact Hrest | apply slice0_length]].
  unfold main. unfold bind at 1. unfold resolveRequest. unfold bind at 1.
  rewrite Hread. unfold bind at 1. unfold parseInput. rewrite Hparse.
  reflexivity.
Qed.

Lemma invalid_json_preview_witness :
  exists preview rest,
    main (json := Demo.json) (Demo.piped [] "{action:") Demo.later
    = Exit 1 (reported ("Invalid JSON input: " ++ "Unexpected token" ++ ". Preview: "
                          ++ Demo.quoted preview)%string Demo.later)
    /\ "{action:" = (preview ++ rest)%string
    /\ String.length preview = Nat.min 200 (String.length "{action:").
Proof.
  apply (invalid_json_preview (json := Demo.json) (Demo.piped [] "{action:") Demo.later
           "{action:" "Unexpected token").
  - reflexivity.
  - reflexivity.
Defined.

(** ** The credential (lines 177-185) *)

(** X4.  For a validated request outside validation mode, a credential that
    is unset or is the empty string ends the invocation with status 1 and the
    message that the variable is not set; the SDK is not constructed, nothing
    is invoked on the service, and the state file is left as it was. *)
Theorem missing_credential {json : JSON} (env : Env) (p : Proc)
        (input : Input.t) (promptText : string) :
  resolveRequest env p = Ret (input, promptText) p ->
  includes "--validate" (argv env) = false ->
  OPENAI_API_KEY env = None \/ OPENAI_API_KEY env = Some "" ->
  main env p =
  Exit 1 {| stateFile := stateFile p;
            stdout := stdout p ++
                      [POutput (Output.mk false None None
                                  (Some "OPENAI_API_KEY environment variable not set")
                                  false)];
            calls := calls p |}.
Proof.
  intros Hreq Hmode Hkey.
  rewrite (main_serve env p input promptText Hreq), serve_run, Hmode.
  destruct Hkey as [-> | ->]; reflexivity.
Qed.

Lemma missing_credential_witness :
  main (json := Demo.json) (Turns.emptyKey ["--input-file"; "/tmp/new.json"]) Demo.later
  = Exit 1 {| stateFile := stateFile Demo.later;
              stdout := [POutput (Output.mk false None None
                                    (Some "OPENAI_API_KEY environment variable not set")
                                    false)];
              calls := [] |}.
Proof.
  apply (missing_credential (json := Demo.json)
           (Turns.emptyKey ["--input-file"; "/tmp/new.json"]) Demo.later
           Demo.askNew "What is 2+2?").
  - reflexivity.
  - reflexivity.
  - right. reflexivity.
Defined.

(** ** What a completed run prints and saves (lines 227-252) *)

(** X5.  A run that completes prints exactly one document, a success with
    [canContinue] and no error; the thread identifier it prints is the one it
    saved in the state file, next to the time of the run; and the response it
    prints is the result of the run when that is a string, its
    [finalResponse] when it has one, and its serialization otherwise. *)
Theorem success_document {json : JSON} (env : Env) (p p' : Proc)
        (input : Input.t) (promptText : string) :
  resolveRequest env p = Ret (input, promptText) p ->
  main env p = Ret tt p' ->
  exists saved printed codex apiKey thread turn,
    stateFile p' = Some (JSON_stringify_State saved)
    /\ stdout p' = stdout p ++ [POutput printed]
    /\ Output.success printed = true
    /\ Output.canContinue printed = true
    /\ Output.error printed = None
    /\ Output.threadId printed = State.threadId saved
    /\ State.lastUsed saved = Some (now env)
    /\ newCodex env apiKey = Ok codex
    /\ openWith codex input (readState (stateFile p)) = Ok thread
    /\ run thread (fullPrompt input promptText) = Ok turn
    /\ State.threadId saved = id turn
    /\ (forall s, result turn = ResString s -> Output.response printed = Some s)
    /\ (forall s, result turn = ResTurn s -> Output.response printed = Some s)
    /\ (forall serialized,
           result turn = ResOther serialized -> Output.response printed = serialized).
Proof.
  intros Hreq Hmain.
  rewrite (main_serve env p input promptText Hreq) in Hmain.
  apply serve_Ret in Hmain.
  destruct Hmain as (_ & apiKey & codex & thread & turn & _ & Hcodex & Hopen & Hrun & ->).
  exists (newState env input (readState (stateFile p))
                   (isNewThread input (readState (stateFile p))) (id turn)),
         (Output.mk true (id turn) (responseText (result turn)) None true),
         codex, apiKey, thread, turn.
  repeat (split; [first [reflexivity | assumption]|]).
  split; [|split]; intros s Hs; simpl; now rewrite Hs.
Qed.

Lemma success_document_witness :
  exists saved printed,
    stateFile (final (main (json := Demo.json)
                           (Demo.env ["--input-file"; "/tmp/new.json"]) Demo.fresh))
    = Some (Demo.stringifyState saved)
    /\ stdout (final (main (json := Demo.json)
                           (Demo.env ["--input-file"; "/tmp/new.json"]) Demo.fresh))
       = [POutput printed]
    /\ Output.threadId printed = State.threadId saved
    /\ Output.response printed = Some "4".
Proof.
  destruct (success_document (json := Demo.json)
              (Demo.env ["--input-file"; "/tmp/new.json"]) Demo.fresh
              (final (main (json := Demo.json)
                           (Demo.env ["--input-file"; "/tmp/new.json"]) Demo.fresh))
              Demo.askNew "What is 2+2?" eq_refl eq_refl)
    as (saved & printed & codex & apiKey & thread & turn
        & Hfile & Hout & _ & _ & _ & Hid & _ & Hcodex & Hopen & Hrun & _ & _ & Hturn & _).
  exists saved, printed.
  split; [exact Hfile | split; [exact Hout | split; [exact Hid|]]].
  apply Hturn.
  assert (Ecodex : Ok codex = Ok Demo.codex) by (rewrite <- Hcodex; reflexivity).
  inversion Ecodex; subst codex.
  assert (Ethread : Ok thread = Ok (Demo.thread "t-8")) by (rewrite <- Hopen; reflexivity).
  inversion Ethread; subst thread.
  assert (Eturn : Ok turn = Ok {| result := ResTurn "4"; id := Some "t-8" |})
    by (rewrite <- Hrun; reflexivity).
  inversion Eturn; subst turn. reflexivity.
Defined.

(** ** Every way [main] can end *)

Lemma resolveRequest_Throw {json : JSON} (env : Env) (p p' : Proc) (message : string) :
  resolveRequest env p = Throw message p' ->
  p' = p
  /\ ((argAfter (indexOf "--input-file" (argv env)) (argv env) = None
       /\ stdin_isTTY env = false
       /\ stdin env = Raise message)
      \/ (exists inputData,
             readInputData env p = Ret inputData p
             /\ JSON_parse_Input inputData = Ok NullInput
             /\ argAfter (indexOf "--prompt-file" (argv env)) (argv env) = None
             /\ message = nullReadMessage "promptFile")).
Proof.
  unfold resolveRequest, bind.
  destruct (readInputData env p) as [inputData p1|code p1|message1 p1] eqn:Hread;
    [|discriminate|].
  - pose proof (quiet_readInputData env p) as Q. rewrite Hread in Q. subst p1.
    unfold parseInput.
    destruct (JSON_parse_Input inputData) as [parsed|e] eqn:Hparse;
      [|rewrite fail_run; discriminate].
    change (ret parsed p) with (Ret parsed p). cbv iota beta.
    unfold readPromptFile.
    assert (F : forall path,
               match promptFromFile env path parsed p with
               | Ret input p2 => p2 = p
               | Exit _ _ => True
               | Throw _ _ => False
               end).
    { intros path. unfold promptFromFile.
      destruct (readFileSync env path); [|exact I].
      destruct parsed; [exact I | exact I | reflexivity]. }
    assert (V : forall input,
               match bind (validate input) (fun t => ret (input, t)) p with
               | Throw _ _ => False
               | _ => True
               end).
    { intros input. unfold bind, validate.
      destruct (negb _); [rewrite fail_run; exact I|].
      destruct (whenTruthy _); [exact I | rewrite fail_run; exact I]. }
    destruct (argAfter _ _) as [path|] eqn:Hflag.
    + specialize (F path).
      destruct (promptFromFile env path parsed p) as [input p2| |]; try discriminate;
        [|contradiction].
      subst p2. specialize (V input). unfold bind in V.
      destruct (validate input p); try discriminate; contradiction.
    + destruct parsed as [|assignMessage|object].
      * intros H. inversion H; subst. split; [reflexivity|].
        right. exists inputData. auto.
      * change (ret Input.empty p) with (Ret Input.empty p). cbv iota beta.
        specialize (V Input.empty). unfold bind in V.
        destruct (validate Input.empty p); try discriminate; contradiction.
      * destruct (whenTruthy (Input.promptFile object)) as [path|].
        -- specialize (F path).
           destruct (promptFromFile env path (ObjectInput object) p) as [input p2| |];
             try discriminate; [|contradiction].
           subst p2. specialize (V input). unfold bind in V.
           destruct (validate input p); try discriminate; contradiction.
        -- change (ret object p) with (Ret object p). cbv iota beta.
           specialize (V object). unfold bind in V.
           destruct (validate object p); try discriminate; contradiction.
  - intros H. inversion H; subst. clear H.
    unfold readInputData in Hread.
    destruct (argAfter _ _) as [path|].
    + destruct (readFileSync env path); [discriminate | rewrite fail_run in Hread; discriminate].
    + destruct (stdin_isTTY env); simpl in Hread.
      * destruct (simpleArgs (argv env)); [discriminate | rewrite fail_run in Hread; discriminate].
      * destruct (stdin env) as [text|message0]; simpl in Hread; [discriminate|].
        inversion Hread; subst. auto.
Qed.

(** X6.  Whatever the environment, [main] prints at most one document and
    its status follows it: a run that completes printed one success; an exit
    has status 0 or 1, status 0 only in validation mode after one report
    that says [valid], status 1 after one failure document
    ([success] false, [canContinue] false, an error and nothing else); and
    when an exception escapes, nothing was printed. *)
Theorem one_document_per_invocation {json : JSON} (env : Env) (p : Proc) :
  match main env p with
  | Ret _ p' =>
      exists printed,
        stdout p' = stdout p ++ [POutput printed]
        /\ Output.success printed = true /\ Output.canContinue printed = true
  | Exit code p' =>
      (code = 0 /\ includes "--validate" (argv env) = true
       /\ exists r, stdout p' = stdout p ++ [PReport r] /\ Report.valid r = true)
      \/ (code = 1
          /\ exists error,
              stdout p' = stdout p ++ [POutput (Output.mk false None None (Some error) false)])
  | Throw _ p' => stdout p' = stdout p
  end.
Proof.
  unfold main, bind.
  pose proof (quiet_resolveRequest env p) as Q.
  destruct (resolveRequest env p) as [[input promptText] p1|code p1|message p1].
  - subst p1. simpl. rewrite serve_run.
    destruct (includes "--validate" (argv env)).
    { left. split; [reflexivity | split; [reflexivity|]].
      exists (report input promptText). split; reflexivity. }
    destruct (whenTruthy (OPENAI_API_KEY env)) as [apiKey|].
    2:{ right. split; [reflexivity | now exists noApiKeyMessage]. }
    destruct (newCodex env apiKey) as [codex|message]; [|reflexivity].
    destruct (loadedState (stateFile p)) as [|state].
    { right. split; [reflexivity|].
      now exists ("Codex error: " ++ nullReadMessage "workingDirectory")%string. }
    cbv zeta.
    destruct (openWith codex input _) as [thread|message].
    2:{ right. split; [reflexivity | now exists ("Codex error: " ++ message)%string]. }
    destruct (run thread _) as [turn|message].
    + exists (Output.mk true (id turn) (responseText (result turn)) None true).
      split; [reflexivity | split; reflexivity].
    + right. split; [reflexivity | now exists ("Codex error: " ++ message)%string].
  - destruct Q as (-> & error & ->). right. split; [reflexivity | now exists error].
  - now subst p1.
Qed.

(** X7.  An exception escapes [main] in three cases only, and then nothing
    was printed, invoked or saved: reading standard input threw (no
    [--input-file] with a path, standard input not a terminal); or the input
    parsed to [null] and no [--prompt-file] is given with a path, where
    reading [promptFile] of the input throws the [TypeError] of that read; or
    the constructor of the SDK threw for a validated request whose credential
    is set.  What the service throws when a thread is opened or run never
    escapes. *)
Theorem escaping_exception {json : JSON} (env : Env) (p p' : Proc) (message : string) :
  main env p = Throw message p' ->
  p' = p
  /\ (((forall path, ~ flagGiven "--input-file" path (argv env))
       /\ stdin_isTTY env = false
       /\ stdin env = Raise message)
      \/ (exists inputData,
             readInputData env p = Ret inputData p
             /\ JSON_parse_Input inputData = Ok NullInput
             /\ (forall path, ~ flagGiven "--prompt-file" path (argv env))
             /\ message = "Cannot read properties of null (reading 'promptFile')")
      \/ (exists input promptText apiKey,
             resolveRequest env p = Ret (input, promptText) p
             /\ includes "--validate" (argv env) = false
             /\ whenTruthy (OPENAI_API_KEY env) = Some apiKey
             /\ newCodex env apiKey = Raise message)).
Proof.
  unfold main, bind.
  destruct (resolveRequest env p) as [[input promptText] p1|code p1|message1 p1] eqn:Hreq;
    [| discriminate |].
  - pose proof (resolveRequest_Ret env p p1 (input, promptText) Hreq) as ->.
    simpl fst. simpl snd. rewrite serve_run.
    destruct (includes "--validate" (argv env)) eqn:Hmode; [discriminate|].
    destruct (whenTruthy (OPENAI_API_KEY env)) as [apiKey|] eqn:Hkey; [|discriminate].
    destruct (newCodex env apiKey) as [codex|message2] eqn:Hcodex.
    + destruct (loadedState (stateFile p)); [discriminate|].
      cbv zeta. destruct (openWith codex input _); [|discriminate].
      destruct (run _ _); discriminate.
    + intros H. inversion H; subst. split; [reflexivity|].
      right. right. exists input, promptText, apiKey. auto.
  - intros H. inversion H; subst.
    apply resolveRequest_Throw in Hreq.
    destruct Hreq as (-> & [(Hflag & Htty & Hstdin)
                           | (inputData & Hread & Hparse & Hflag & ->)]).
    + split; [reflexivity|]. left.
      split; [now apply argAfter_none_not_given | auto].
    + split; [reflexivity|]. right. left. exists inputData.
      split; [exact Hread | split; [exact Hparse | split; [|reflexivity]]].
      now apply argAfter_none_not_given.
Qed.

Lemma escaping_exception_witness :
  main (json := Demo.json) (Turns.brokenPipe []) Demo.later
  = Throw "EAGAIN: resource temporarily unavailable, read" Demo.later
  /\ main (json := Demo.json) (Demo.piped ["--validate"] "null") Demo.later
     = Throw "Cannot read properties of null (reading 'promptFile')" Demo.later
  /\ main (json := Demo.json) (Turns.noBinary ["--input-file"; "/tmp/new.json"]) Demo.later
     = Throw "Unsupported platform" Demo.later
  /\ (Demo.later = Demo.later
      /\ (((forall path, ~ flagGiven "--input-file" path (argv (Demo.piped ["--validate"] "null")))
           /\ stdin_isTTY (Demo.piped ["--validate"] "null") = false
           /\ stdin (Demo.piped ["--validate"] "null")
              = Raise "Cannot read properties of null (reading 'promptFile')")
          \/ (exists inputData,
                 readInputData (json := Demo.json) (Demo.piped ["--validate"] "null") Demo.later
                 = Ret inputData Demo.later
                 /\ JSON_parse_Input (JSON := Demo.json) inputData = Ok NullInput
                 /\ (forall path,
                        ~ flagGiven "--prompt-file" path
                          (argv (Demo.piped ["--validate"] "null")))
                 /\ "Cannot read properties of null (reading 'promptFile')"
                    = "Cannot read properties of null (reading 'promptFile')")
          \/ (exists input promptText apiKey,
                 resolveRequest (json := Demo.json) (Demo.piped ["--validate"] "null")
                                Demo.later
                 = Ret (input, promptText) Demo.later
                 /\ includes "--validate" (argv (Demo.piped ["--validate"] "null")) = false
                 /\ whenTruthy (OPENAI_API_KEY (Demo.piped ["--validate"] "null"))
                    = Some apiKey
                 /\ newCodex (Demo.piped ["--validate"] "null") apiKey
                    = Raise "Cannot read properties of null (reading 'promptFile')"))).
Proof.
  split; [reflexivity | split; [reflexivity | split; [reflexivity|]]].
  apply (escaping_exception (json := Demo.json) (Demo.piped ["--validate"] "null")
           Demo.later Demo.later "Cannot read properties of null (reading 'promptFile')").
  reflexivity.
Defined.

(** ** When the service is invoked *)

(** X8.  Whatever the environment, [main] invokes at most two operations on
    the service, and only for a validated request outside validation mode
    whose credential is set and for which the SDK was constructed: it opens
    one thread, and runs it once if the opening returned.  An invocation that
    fails before that point invokes nothing. *)
Theorem service_invoked_only_when_ready {json : JSON} (env : Env) (p : Proc) :
  exists sent,
    calls (final (main env p)) = calls p ++ sent
    /\ (sent = []
        \/ exists input promptText apiKey codex,
            resolveRequest env p = Ret (input, promptText) p
            /\ includes "--validate" (argv env) = false
            /\ whenTruthy (OPENAI_API_KEY env) = Some apiKey
            /\ newCodex env apiKey = Ok codex
            /\ ((sent = [openCall input (readState (stateFile p))]
                 /\ exists message,
                     openWith codex input (readState (stateFile p)) = Raise message)
                \/ (sent = [openCall input (readState (stateFile p));
                            Run (fullPrompt input promptText)]
                    /\ exists thread,
                        openWith codex input (readState (stateFile p)) = Ok thread))).
Proof.
  unfold main, bind.
  pose proof (quiet_resolveRequest env p) as Q.
  destruct (resolveRequest env p) as [[input promptText] p1|code p1|message p1] eqn:Hreq.
  - subst p1. simpl fst. simpl snd. rewrite serve_run.
    destruct (includes "--validate" (argv env)) eqn:Hmode.
    { exists []. simpl. rewrite app_nil_r. auto. }
    destruct (whenTruthy (OPENAI_API_KEY env)) as [apiKey|] eqn:Hkey.
    2:{ exists []. simpl. rewrite app_nil_r. auto. }
    destruct (newCodex env apiKey) as [codex|message] eqn:Hcodex.
    2:{ exists []. simpl. rewrite app_nil_r. auto. }
    destruct (loadedState (stateFile p)) as [|state].
    { exists []. simpl. rewrite app_nil_r. auto. }
    cbv zeta.
    destruct (openWith codex input _) as [thread|message] eqn:Hopen.
    2:{ exists [openCall input (readState (stateFile p))].
        split; [reflexivity|]. right.
        exists input, promptText, apiKey, codex.
        repeat (split; [reflexivity || assumption|]).
        left. split; [reflexivity | now exists message]. }
    exists [openCall input (readState (stateFile p)); Run (fullPrompt input promptText)].
    split.
    + destruct (run thread _); simpl; [reflexivity | now rewrite <- app_assoc].
    + right. exists input, promptText, apiKey, codex.
      repeat (split; [reflexivity || assumption|]).
      right. split; [reflexivity | now exists thread].
  - destruct Q as (_ & error & ->). exists []. simpl. rewrite app_nil_r. auto.
  - subst p1. exists []. simpl. rewrite app_nil_r. auto.
Qed.

(** ** The topic (line 240) *)

(** X9.  The record a completed run saves always has a topic that is a
    non-empty string: the topic of the request when it has a non-empty one,
    else the non-empty topic of the record loaded from the state file, else
    [general review]. *)
Theorem saved_topic {json : JSON} (env : Env) (p p' : Proc)
        (input : Input.t) (promptText : string) :
  resolveRequest env p = Ret (input, promptText) p ->
  main env p = Ret tt p' ->
  exists saved topic,
    stateFile p' = Some (JSON_stringify_State saved)
    /\ State.topic saved = Some topic
    /\ topic <> ""
    /\ (forall requested,
           Input.topic input = Some requested -> requested <> "" -> topic = requested)
    /\ (truthyO (Input.topic input) = false ->
        (forall previous,
            State.topic (readState (stateFile p)) = Some previous -> previous <> "" ->
            topic = previous)
        /\ (truthyO (State.topic (readState (stateFile p))) = false ->
            topic = "general review")).
Proof.
  intros Hreq Hmain.
  destruct (main_Ret env p p' input promptText Hreq Hmain) as (turn & ->).
  set (state := readState (stateFile p)).
  assert (Hcases :
            (exists requested, whenTruthy (Input.topic input) = Some requested)
            \/ (whenTruthy (Input.topic input) = None
                /\ exists previous, whenTruthy (State.topic state) = Some previous)
            \/ (whenTruthy (Input.topic input) = None
                /\ whenTruthy (State.topic state) = None)).
  { destruct (whenTruthy (Input.topic input)) as [requested|]; [left; eauto|].
    destruct (whenTruthy (State.topic state)) as [previous|]; [right; left; eauto|].
    right; right; auto. }
  assert (Hsaved : forall isNew threadId,
             State.topic (newState env input state isNew threadId)
             = jsOr (jsOr (Input.topic input) (State.topic state)) (Some "general review"))
    by reflexivity.
  destruct Hcases as [(requested & Hr) | [(Hnone & previous & Hp) | (Hnone & Hnone')]].
  - exists (newState env input state (isNewThread input state) (id turn)), requested.
    pose proof Hr as Hr'. apply whenTruthy_Some in Hr'. destruct Hr' as (Hin & Hne).
    split; [reflexivity|]. split.
    { rewrite Hsaved. unfold jsOr. rewrite Hin. simpl.
      destruct requested; [congruence | reflexivity]. }
    split; [exact Hne|]. split.
    + intros requested' H' _. congruence.
    + intros Hfalsy. apply whenTruthy_None in Hfalsy. congruence.
  - exists (newState env input state (isNewThread input state) (id turn)), previous.
    pose proof Hp as Hp'. apply whenTruthy_Some in Hp'. destruct Hp' as (Hst & Hne).
    pose proof Hnone as Hfalsy. apply whenTruthy_None in Hfalsy.
    split; [reflexivity|]. split.
    { rewrite Hsaved. unfold jsOr at 2. rewrite Hfalsy. unfold jsOr. rewrite Hst. simpl.
      destruct previous; [congruence | reflexivity]. }
    split; [exact Hne|]. split.
    + intros requested Hin Hne'.
      assert (W : whenTruthy (Input.topic input) = Some requested)
        by (apply whenTruthy_Some; auto).
      congruence.
    + intros _. split.
      * intros previous' H' _. congruence.
      * intros Hfalsy'. apply whenTruthy_None in Hfalsy'. congruence.
  - exists (newState env input state (isNewThread input state) (id turn)), "general review".
    pose proof Hnone as Hfalsy. apply whenTruthy_None in Hfalsy.
    pose proof Hnone' as Hfalsy'. apply whenTruthy_None in Hfalsy'.
    split; [reflexivity|]. split.
    { rewrite Hsaved. unfold jsOr at 2. rewrite Hfalsy. unfold jsOr. rewrite Hfalsy'.
      reflexivity. }
    split; [discriminate|]. split.
    + intros requested Hin Hne.
      assert (W : whenTruthy (Input.topic input) = Some requested)
        by (apply whenTruthy_Some; auto).
      congruence.
    + intros _. split.
      * intros previous Hst Hne.
        assert (W : whenTruthy (State.topic state) = Some previous)
          by (apply whenTruthy_Some; auto).
        congruence.
      * intros _. reflexivity.
Qed.

Lemma saved_topic_witness :
  exists saved,
    stateFile (final (main (json := Demo.json)
                           (Demo.env ["--input-file"; "/tmp/continue.json"]) Demo.later))
    = Some (Demo.stringifyState saved)
    /\ State.topic saved = Some "sort review".
Proof.
  destruct (saved_topic (json := Demo.json)
              (Demo.env ["--input-file"; "/tmp/continue.json"]) Demo.later
              (final (main (json := Demo.json)
                           (Demo.env ["--input-file"; "/tmp/continue.json"]) Demo.later))
              Demo.askContinue "And now?" eq_refl eq_refl)
    as (saved & topic & Hfile & Htopic & _ & _ & Hprevious).
  assert (Hne : "sort review" <> "") by discriminate.
  destruct (Hprevious eq_refl) as (Hp & _).
  exists saved. split; [exact Hfile|].
  rewrite Htopic. f_equal. exact (Hp "sort review" eq_refl Hne).
Defined.

(** ** Two invocations in a row (lines 39-52, 211-216, 238-245) *)

(** The zero a sum rounds to is the one [count || 0] gives. *)
Lemma jsOrNum_plus1 (x : Number) : jsOrNum (Some (plus1 x)) (Finite 0 0) = plus1 x.
Proof.
  assert (R : forall m e, jsOrNum (Some (round64 m e)) (Finite 0 0) = round64 m e).
  { intros m e. unfold round64.
    destruct (Z.eqb_spec m 0) as [|Hm]; [reflexivity|]. cbv zeta.
    destruct (Z.leb _ e).
    - destruct (Z.leb 1024 _); [reflexivity|].
      unfold jsOrNum. destruct (Z.eqb_spec m 0) as [E|]; [exact (False_ind _ (Hm E)) | reflexivity].
    - match goal with
      | |- context [Z.eqb ?q 0] => destruct (Z.eqb_spec q 0) as [|Hq]; [reflexivity|];
                                   set (q' := q) in *
      end.
      destruct (Z.leb 1024 _); [reflexivity|].
      unfold jsOrNum.
      destruct (Z.eqb_spec (Z.sgn m * q') 0) as [E|]; [|reflexivity].
      exfalso. apply Z.mul_eq_0 in E. destruct E as [E|E]; [|exact (Hq E)].
      apply Hm. now apply Z.sgn_null_iff. }
  destruct x as [m e|negative]; [|reflexivity].
  unfold plus1. destruct (Z.leb 0 e); apply R.
Qed.

(** X10.  A run that completed, then a [continue]: when the text the first
    run wrote parses back to the record it saved, and the service had
    returned a non-empty thread identifier, a second run that completes for a
    [continue] request asked the SDK to resume exactly that identifier, ran
    the thread it got, and saved the identifier that thread had after the run
    with the count of the first run plus 1 as a double: 2 after a first run
    that started its thread, and [n + 1] whenever the first count is an
    integer [n] with [|n + 1| < 2^53].  With no topic and no directory in the
    second request, those of the first record are kept and the directory is
    passed again. *)
Theorem continue_after_completed_run {json : JSON} (env1 env2 : Env) (p p2 : Proc)
        (input1 input2 : Input.t) (prompt1 prompt2 : string) (turn1 : Turn)
        (threadId : string) :
  resolveRequest env1 p = Ret (input1, prompt1) p ->
  main env1 p = Ret tt (completed env1 input1 prompt1 turn1 p) ->
  JSON_parse_State
    (JSON_stringify_State
       (newState env1 input1 (readState (stateFile p))
                 (isNewThread input1 (readState (stateFile p))) (id turn1)))
  = Ok (newState env1 input1 (readState (stateFile p))
                 (isNewThread input1 (readState (stateFile p))) (id turn1)) ->
  id turn1 = Some threadId -> threadId <> "" ->
  resolveRequest env2 (completed env1 input1 prompt1 turn1 p)
  = Ret (input2, prompt2) (completed env1 input1 prompt1 turn1 p) ->
  Input.action input2 = Str "continue" ->
  main env2 (completed env1 input1 prompt1 turn1 p) = Ret tt p2 ->
  exists saved1 saved2 options count apiKey codex thread turn2,
    stateFile (completed env1 input1 prompt1 turn1 p) = Some (JSON_stringify_State saved1)
    /\ stateFile p2 = Some (JSON_stringify_State saved2)
    /\ whenTruthy (OPENAI_API_KEY env2) = Some apiKey
    /\ newCodex env2 apiKey = Ok codex
    /\ resumeThread codex threadId options = Ok thread
    /\ run thread (fullPrompt input2 prompt2) = Ok turn2
    /\ State.threadId saved2 = id turn2
    /\ calls p2 = calls (completed env1 input1 prompt1 turn1 p)
                  ++ [ResumeThread threadId options; Run (fullPrompt input2 prompt2)]
    /\ State.messageCount saved1 = Some count
    /\ State.messageCount saved2 = Some (plus1 count)
    /\ (isNewThread input1 (readState (stateFile p)) = true ->
        count = Finite 1 0 /\ State.messageCount saved2 = Some (Finite 2 0))
    /\ (forall n : Z,
           asInteger count = Some n -> (Z.abs (n + 1) < 2 ^ 53)%Z ->
           exists next,
             State.messageCount saved2 = Some next /\ asInteger next = Some (n + 1)%Z)
    /\ (truthyO (Input.topic input2) = false -> State.topic saved2 = State.topic saved1)
    /\ (truthyO (Input.workingDirectory input2) = false ->
        State.workingDirectory saved2 = State.workingDirectory saved1
        /\ opt_workingDirectory options = whenTruthy (State.workingDirectory saved1)).
Proof.
  intros Hreq1 Hmain1 Hround Hid Hne Hreq2 Hcont Hmain2.
  set (state0 := readState (stateFile p)) in *.
  set (saved1 := newState env1 input1 state0 (isNewThread input1 state0) (id turn1)) in *.
  set (p1 := completed env1 input1 prompt1 turn1 p) in *.
  assert (Hload : readState (stateFile p1) = saved1).
  { change (match
               match JSON_parse_State (JSON_stringify_State saved1) with
               | Ok state => state
               | Raise _ => ObjectState State.empty
               end
             with
             | ObjectState state => state
             | NullState => State.empty
             end = saved1).
    now rewrite Hround. }
  destruct (main_Ret_calls env2 p1 p2 input2 prompt2 Hreq2 Hmain2)
    as (apiKey & codex & thread & turn2 & Hkey & Hcodex & Hopen & Hrun & ->).
  assert (Htarget : resumeTarget input2 saved1 = Some threadId).
  { unfold resumeTarget. rewrite Hcont. change (isString (Str "continue") "continue") with true.
    cbv iota. unfold saved1. unfold newState. unfold State.threadId. rewrite Hid.
    apply whenTruthy_Some. auto. }
  rewrite Hload in Hopen. unfold openWith in Hopen. rewrite Htarget in Hopen.
  set (count0 := if isNewThread input1 state0 then Finite 0 0
                 else jsOrNum (State.messageCount state0) (Finite 0 0)).
  exists saved1,
         (newState env2 input2 saved1 (isNewThread input2 saved1) (id turn2)),
         (threadOptions input2 saved1),
         (plus1 count0),
         apiKey, codex, thread, turn2.
  split; [reflexivity|]. split.
  { unfold completed. rewrite Hload. reflexivity. }
  split; [exact Hkey|]. split; [exact Hcodex|]. split; [exact Hopen|].
  split; [exact Hrun|]. split; [reflexivity|].
  split.
  { unfold completed. rewrite Hload. unfold calls at 1. unfold openCall.
    now rewrite Htarget. }
  split; [reflexivity|].
  assert (Hcount : State.messageCount
                     (newState env2 input2 saved1 (isNewThread input2 saved1) (id turn2))
                   = Some (plus1 (plus1 count0))).
  { unfold isNewThread at 1. rewrite Htarget.
    unfold newState at 1. unfold State.messageCount at 1.
    unfold saved1 at 1. unfold newState at 1. unfold State.messageCount at 1.
    fold count0. now rewrite jsOrNum_plus1. }
  split; [exact Hcount|]. split.
  { intros Hnew. rewrite Hcount. unfold count0. rewrite Hnew. split; reflexivity. }
  split.
  { intros n Hn Hbound. exists (plus1 (plus1 count0)).
    split; [exact Hcount | now apply plus1_integer]. }
  split.
  - intros Hfalsy.
    set (t1 := jsOr (jsOr (Input.topic input1) (State.topic state0)) (Some "general review")).
    assert (Ht1 : truthyO t1 = true).
    { unfold t1, jsOr.
      destruct (truthyO (Input.topic input1)) eqn:E1; [now rewrite E1|].
      destruct (truthyO (State.topic state0)) eqn:E2; [now rewrite E2 | reflexivity]. }
    change (jsOr (jsOr (Input.topic input2) t1) (Some "general review") = t1).
    unfold jsOr. rewrite Hfalsy. cbv iota. now rewrite Ht1.
  - intros Hfalsy. split.
    + change (jsOr (Input.workingDirectory input2) (State.workingDirectory saved1)
              = State.workingDirectory saved1).
      unfold jsOr. now rewrite Hfalsy.
    + change (whenTruthy (jsOr (Input.workingDirectory input2)
                               (State.workingDirectory saved1))
              = whenTruthy (State.workingDirectory saved1)).
      unfold jsOr. now rewrite Hfalsy.
Qed.

Lemma continue_after_completed_run_witness :
  exists saved1 saved2 options thread turn2,
    stateFile (final (main (json := Turns.json)
                           (Demo.env ["--input-file"; "/tmp/new.json"]) Demo.fresh))
    = Some (Demo.stringifyState saved1)
    /\ stateFile (final (main (json := Turns.json)
                              (Demo.env ["--input-file"; "/tmp/continue.json"])
                              (final (main (json := Turns.json)
                                           (Demo.env ["--input-file"; "/tmp/new.json"])
                                           Demo.fresh))))
       = Some (Demo.stringifyState saved2)
    /\ resumeThread Demo.codex "t-8" options = Ok thread
    /\ run thread "And now?" = Ok turn2
    /\ State.threadId saved2 = id turn2
    /\ calls (final (main (json := Turns.json)
                          (Demo.env ["--input-file"; "/tmp/continue.json"])
                          (final (main (json := Turns.json)
                                       (Demo.env ["--input-file"; "/tmp/new.json"])
                                       Demo.fresh))))
       = [StartThread {| skipGitRepoCheck := true; opt_workingDirectory := None |};
          Run "What is 2+2?";
          ResumeThread "t-8" options;
          Run "And now?"]
    /\ State.messageCount saved2 = Some (Finite 2 0)
    /\ State.topic saved2 = State.topic saved1.
Proof.
  assert (Hne : "t-8" <> "") by discriminate.
  destruct (continue_after_completed_run (json := Turns.json)
              (Demo.env ["--input-file"; "/tmp/new.json"])
              (Demo.env ["--input-file"; "/tmp/continue.json"])
              Demo.fresh
              (final (main (json := Turns.json)
                           (Demo.env ["--input-file"; "/tmp/continue.json"])
                           (final (main (json := Turns.json)
                                        (Demo.env ["--input-file"; "/tmp/new.json"])
                                        Demo.fresh))))
              Demo.askNew Demo.askContinue "What is 2+2?" "And now?"
              {| result := ResTurn "4"; id := Some "t-8" |} "t-8"
              eq_refl eq_refl eq_refl eq_refl Hne eq_refl eq_refl eq_refl)
    as (saved1 & saved2 & options & count & apiKey & codex & thread & turn2
        & Hfile1 & Hfile2 & _ & Hcodex & Hresume & Hrun & Hid & Hcalls & _ & _
        & Hnew & _ & Htopic & _).
  assert (Ecodex : Ok codex = Ok Demo.codex) by (rewrite <- Hcodex; reflexivity).
  inversion Ecodex; subst codex.
  exists saved1, saved2, options, thread, turn2.
  split; [exact Hfile1|]. split; [exact Hfile2|]. split; [exact Hresume|].
  split; [exact Hrun|]. split; [exact Hid|]. split; [exact Hcalls|].
  split; [exact (proj2 (Hnew eq_refl)) | exact (Htopic eq_refl)].
Defined.

(** ** A prompt typed as arguments (lines 86-89) *)

Lemma resolveRequest_validate {json : JSON} (env : Env) (p : Proc)
      (inputData : string) (parsed input : Input.t) :
  readInputData env p = Ret inputData p ->
  JSON_parse_Input inputData = Ok parsed ->
  readPromptFile env parsed p = Ret input p ->
  resolveRequest env p
  = bind (validate input) (fun promptText => ret (input, promptText)) p.
Proof.
  intros Hread Hparse Hfile.
  unfold resolveRequest. unfold bind at 1. rewrite Hread.
  unfold bind at 1. unfold parseInput. rewrite Hparse. simpl.
  unfold bind at 1. now rewrite Hfile.
Qed.

Lemma join_empty (first : string) (rest : list string) :
  join " " (first :: rest) = "" <-> first :: rest = [""].
Proof.
  unfold join. split.
  - destruct rest as [|second rest]; simpl.
    + now intros ->.
    + destruct first; simpl; discriminate.
  - intros H. inversion H; subst. reflexivity.
Qed.

(** X11.  With a terminal as standard input, no [--input-file] and no
    [--prompt-file] with a path, and a first argument that does not start
    with two dashes, when the synthesized object parses back to itself: the
    request is [new] with all the arguments joined by spaces as its prompt;
    the only arguments refused (with the missing-prompt error) are the single
    empty argument; and a [--validate] among the later arguments switches
    validation mode on while staying part of the prompt that is measured. *)
Theorem typed_arguments_request {json : JSON} (env : Env) (p : Proc)
        (first : string) (rest : list string) :
  stdin_isTTY env = true ->
  argv env = first :: rest ->
  startsWith "--" first = false ->
  (forall path, ~ flagGiven "--input-file" path (argv env)) ->
  (forall path, ~ flagGiven "--prompt-file" path (argv env)) ->
  JSON_parse_Input (JSON_stringify_Input (simpleInput (argv env)))
  = Ok (simpleInput (argv env)) ->
  (argv env <> [""] ->
   resolveRequest env p = Ret (simpleInput (argv env), join " " (argv env)) p
   /\ (includes "--validate" (argv env) = true ->
       main env p =
       Exit 0 {| stateFile := stateFile p;
                 stdout := stdout p ++
                           [PReport (Report.mk true (Some "new")
                                               (String.length (join " " (argv env)))
                                               false false false)];
                 calls := calls p |}))
  /\ (argv env = [""] -> main env p = Exit 1 (reported missingPromptMessage p)).
Proof.
  intros Htty Hargs Hfirst Hinput Hprompt Hround.
  apply argAfter_none_not_given in Hinput.
  apply argAfter_none_not_given in Hprompt.
  assert (Hsimple : simpleArgs (argv env) = true).
  { rewrite Hargs. simpl. now rewrite Hfirst. }
  assert (Hresolve : resolveRequest env p =
                     bind (validate (simpleInput (argv env)))
                          (fun promptText => ret (simpleInput (argv env), promptText)) p).
  { apply (resolveRequest_validate env p
             (JSON_stringify_Input (simpleInput (argv env)))
             (simpleInput (argv env)) (simpleInput (argv env))).
    - unfold readInputData. rewrite Hinput, Htty. simpl. now rewrite Hsimple.
    - exact Hround.
    - unfold readPromptFile. rewrite Hprompt. reflexivity. }
  split.
  - intros Hne.
    assert (Hjoin : join " " (argv env) <> "").
    { rewrite Hargs. intros E. apply join_empty in E. congruence. }
    assert (Hreq : resolveRequest env p
                   = Ret (simpleInput (argv env), join " " (argv env)) p).
    { rewrite Hresolve. unfold bind, validate. simpl.
      destruct (join " " (argv env)); [congruence | reflexivity]. }
    split; [exact Hreq|].
    intros Hmode. rewrite (main_serve env p _ _ Hreq), serve_run, Hmode. reflexivity.
  - intros Hempty. unfold main. unfold bind at 1. rewrite Hresolve.
    rewrite Hempty. reflexivity.
Qed.

Lemma typed_arguments_request_witness :
  (resolveRequest (json := Turns.json) (Demo.env ["Check"; "this"; "--validate"]) Demo.later
   = Ret (Turns.askTyped, "Check this --validate") Demo.later
   /\ main (json := Turns.json) (Demo.env ["Check"; "this"; "--validate"]) Demo.later
      = Exit 0 {| stateFile := stateFile Demo.later;
                  stdout := [PReport (Report.mk true (Some "new") 21 false false false)];
                  calls := [] |})
  /\ main (json := Turns.json) (Demo.env [""]) Demo.later
     = Exit 1 (reported missingPromptMessage Demo.later).
Proof.
  split.
  - destruct (typed_arguments_request (json := Turns.json)
                (Demo.env ["Check"; "this"; "--validate"]) Demo.later
                "Check" ["this"; "--validate"] eq_refl eq_refl eq_refl) as (Hsome & _).
    + apply argAfter_none_not_given. reflexivity.
    + apply argAfter_none_not_given. reflexivity.
    + reflexivity.
    + assert (Hne : argv (Demo.env ["Check"; "this"; "--validate"]) <> [""])
        by discriminate.
      destruct (Hsome Hne) as (Hreq & Hmode).
      split; [exact Hreq | exact (Hmode eq_refl)].
  - destruct (typed_arguments_request (json := Turns.json)
                (Demo.env [""]) Demo.later "" [] eq_refl eq_refl eq_refl) as (_ & Hempty).
    + apply argAfter_none_not_given. reflexivity.
    + apply argAfter_none_not_given. reflexivity.
    + reflexivity.
    + exact (Hempty eq_refl).
Defined.

(** ** The earlier script and the current one *)

Lemma legacyServe_serve {json : JSON} (env : Env) (input : Input.t)
      (promptText : string) (p : Proc) :
  includes "--validate" (argv env) = false ->
  legacyServe env input promptText p = serve env input promptText p.
Proof.
  intros Hmode. unfold serve, legacyServe. now rewrite Hmode.
Qed.

(** X12.  The current script does what the earlier one (the text kept in
    [SKILL.md]) did on every invocation the earlier one understood and the
    new features leave alone: no [--input-file] or [--prompt-file] with a
    path, no [--validate], standard input piped or else a first argument
    that does not start with two dashes, and an input that parses to an
    object without [promptFile] whose action is [new] or [continue].  On such
    an invocation the two [main] end in the same way with the same output,
    state file and calls. *)
Theorem legacy_invocations_unchanged {json : JSON} (env : Env) (p : Proc)
        (inputData : string) (parsed : Input.t) :
  (forall path, ~ flagGiven "--input-file" path (argv env)) ->
  (forall path, ~ flagGiven "--prompt-file" path (argv env)) ->
  includes "--validate" (argv env) = false ->
  (stdin_isTTY env = true ->
   exists first rest, argv env = first :: rest /\ startsWith "--" first = false) ->
  legacyReadInputData env p = Ret inputData p ->
  JSON_parse_Input inputData = Ok parsed ->
  truthyO (Input.promptFile parsed) = false ->
  Input.action parsed = Some "new" \/ Input.action parsed = Some "continue" ->
  main env p = legacyMain env p.
Proof.
  intros Hinput Hprompt Hmode Hargs Hread Hparse Hfield Haction.
  apply argAfter_none_not_given in Hinput.
  apply argAfter_none_not_given in Hprompt.
  apply whenTruthy_None in Hfield.
  assert (Hsame : readInputData env p = legacyReadInputData env p).
  { unfold readInputData, legacyReadInputData. rewrite Hinput.
    destruct (stdin_isTTY env); simpl; [|reflexivity].
    destruct (Hargs eq_refl) as (first & rest & E & Hfirst).
    rewrite E. simpl. now rewrite Hfirst. }
  assert (A : isString (Input.action parsed) "new"
              || isString (Input.action parsed) "continue" = true).
  { destruct Haction as [-> | ->]; reflexivity. }
  assert (Hresolve : resolveRequest env p =
                     bind (validate parsed)
                          (fun promptText => ret (parsed, promptText)) p).
  { apply (resolveRequest_validate env p inputData parsed parsed).
    - now rewrite Hsame.
    - exact Hparse.
    - unfold readPromptFile. now rewrite Hprompt, Hfield. }
  assert (Hlegacy : legacyMain env p =
                    bind (legacyValidate parsed)
                         (fun promptText => legacyServe env parsed promptText) p).
  { unfold legacyMain. unfold bind at 1. rewrite Hread.
    unfold bind at 1. unfold legacyParseInput. now rewrite Hparse. }
  rewrite Hlegacy. unfold main. unfold bind at 1. rewrite Hresolve.
  unfold bind, validate, legacyValidate. rewrite A. simpl negb. cbv iota.
  destruct (whenTruthy (Input.prompt parsed)) as [promptText|].
  - simpl. symmetry. now apply legacyServe_serve.
  - reflexivity.
Qed.

Lemma legacy_invocations_unchanged_witness :
  main (json := Demo.json) (Demo.piped [] (Demo.stringifyInput Demo.askContinue)) Demo.later
  = legacyMain (json := Demo.json)
      (Demo.piped [] (Demo.stringifyInput Demo.askContinue)) Demo.later
  /\ main (json := Demo.json) (Demo.env ["What"; "is"; "2+2?"]) Demo.later
     = legacyMain (json := Demo.json) (Demo.env ["What"; "is"; "2+2?"]) Demo.later.
Proof.
  split.
  - apply (legacy_invocations_unchanged (json := Demo.json)
             (Demo.piped [] (Demo.stringifyInput Demo.askContinue)) Demo.later
             (Demo.stringifyInput Demo.askContinue) Demo.askContinue).
    + apply argAfter_none_not_given. reflexivity.
    + apply argAfter_none_not_given. reflexivity.
    + reflexivity.
    + discriminate.
    + reflexivity.
    + reflexivity.
    + reflexivity.
    + right. reflexivity.
  - apply (legacy_invocations_unchanged (json := Demo.json)
             (Demo.env ["What"; "is"; "2+2?"]) Demo.later
             (Demo.stringifyInput Demo.askNew) Demo.askNew).
    + apply argAfter_none_not_given. reflexivity.
    + apply argAfter_none_not_given. reflexivity.
    + reflexivity.
    + intros _. exists "What", ["is"; "2+2?"]. split; reflexivity.
    + reflexivity.
    + reflexivity.
    + reflexivity.
    + left. reflexivity.
Defined.

Example demo_legacy_continue :
  final (legacyMain (json := Demo.json)
           (Demo.piped [] (Demo.stringifyInput Demo.askContinue)) Demo.later)
  = {| stateFile := Some (Demo.stringifyState
         (State.mk (Some "t-7") (Some "sort review") (Some "2026-01-02T00:00:00.000Z")
                   (Some (Finite 4 0)) (Some "/work")));
       stdout := [POutput (Output.mk true (Some "t-7") (Some "4") None true)];
       calls := [ResumeThread "t-7" {| skipGitRepoCheck := true;
                                       opt_workingDirectory := Some "/work" |};
                 Run "And now?"] |}.
Proof. vm_compute. reflexivity. Qed.

(** ** A state file or an input that holds [null] (lines 130 and 205) *)



(** X14.  An input whose text parses to [null]: without a [--prompt-file]
    given with a path, reading [promptFile] of the input throws outside any
    [try], so the exception escapes [main] with nothing printed, also in
    validation mode; with the flag and a file that can be read, setting the
    prompt throws inside the [try], and the invocation ends with status 1 and
    the prompt-file error that names the path. *)
Theorem null_input {json : JSON} (env : Env) (p : Proc) (inputData : string) :
  readInputData env p = Ret inputData p ->
  JSON_parse_Input inputData = Ok NullInput ->
  ((forall path, ~ flagGiven "--prompt-file" path (argv env)) ->
   main env p = Throw "Cannot read properties of null (reading 'promptFile')" p)
  /\ (forall path content,
         flagGiven "--prompt-file" path (argv env) ->
         readFileSync env path = Ok content ->
         main env p =
         Exit 1 (reported ("Failed to read prompt file " ++ dq ++ path ++ dq ++ ": "
                             ++ "Cannot set properties of null (setting 'prompt')")%string
                          p)).
Proof.
  intros Hread Hparse.
  assert (Hmain : main env p
                  = bind (bind (readPromptFile env NullInput)
                               (fun input =>
                                  bind (validate input)
                                       (fun promptText => ret (input, promptText))))
                         (fun request => serve env (fst request) (snd request)) p).
  { unfold main. unfold bind at 1. unfold resolveRequest. unfold bind at 1.
    rewrite Hread. unfold bind at 1. unfold parseInput. rewrite Hparse.
    reflexivity. }
  split.
  - intros Hnone. apply argAfter_none_not_given in Hnone.
    rewrite Hmain. unfold bind at 1. unfold bind at 1.
    unfold readPromptFile. rewrite Hnone. reflexivity.
  - intros path content Hflag Hfile. apply argAfter_given in Hflag.
    rewrite Hmain. unfold bind at 1. unfold bind at 1.
    unfold readPromptFile. rewrite Hflag.
    unfold promptFromFile. rewrite Hfile. reflexivity.
Qed.

Lemma null_input_witness :
  main (json := Demo.json) (Demo.piped [] "null") Demo.later
  = Throw "Cannot read properties of null (reading 'promptFile')" Demo.later
  /\ main (json := Demo.json) (Demo.piped ["--prompt-file"; "/tmp/flag.txt"] "null")
          Demo.later
     = Exit 1 (reported ("Failed to read prompt file " ++ dq ++ "/tmp/flag.txt" ++ dq ++ ": "
                           ++ "Cannot set properties of null (setting 'prompt')")%string
                        Demo.later).
Proof.
  split.
  - apply (proj1 (null_input (json := Demo.json) (Demo.piped [] "null") Demo.later "null"
                    eq_refl eq_refl)).
    apply argAfter_none_not_given. reflexivity.
  - apply (proj2 (null_input (json := Demo.json)
                    (Demo.piped ["--prompt-file"; "/tmp/flag.txt"] "null") Demo.later "null"
                    eq_refl eq_refl) "/tmp/flag.txt" "prompt of the flag").
    + apply argAfter_given. reflexivity.
    + reflexivity.
Defined.
